(** * Calorie and macro calculator: a Rocq model of the TypeScript module

    The module holds three functions over JavaScript numbers,
    [calculateBMR], [calculateCalories] and [getGoalCalories], and one
    constant table, [ACTIVITY_MULTIPLIERS].  JavaScript numbers are IEEE-754
    binary64 values; they are modelled here by their exact rational value,
    with every arithmetic operation followed by the binary64 rounding
    (round to nearest, ties to even, gradual underflow, overflow to an
    infinity).  The two zeros are identified: no expression of the module can
    tell them apart, since comparisons treat them alike and every divisor is
    a non-zero literal.

    The module keeps one object, the table of multipliers; where a
    property is about the absence of state, the two exported functions are
    also written as programs over a store that holds that object.

    The page [PremiumDetails.tsx] feeds the module: its schema
    [detailsSchema] and its submit handler [handleSubmit] are modelled
    too, the handler by the list of its effects, the libraries it calls
    (zod, the back end, the two global parsing functions) by what they
    return. *)

From Stdlib Require Import ZArith QArith Qfield Qround Qabs Qreduction Qcanon.
From Stdlib Require Import Bool Lia Lqa Floats Setoid Morphisms.
From Stdlib Require Import String List.
Import ListNotations.

Local Open Scope Z_scope.
Local Open Scope Q_scope.

(** ** JavaScript numbers *)

Inductive number : Type :=
| NaN
| Inf (neg : bool)
| Fin (q : Q).

(** Round to the nearest integer, ties to the even one. *)
Definition RNE (x : Q) : Z :=
  let f := Qfloor x in
  match Qcompare (x - inject_Z f) (1 # 2) with
  | Lt => f
  | Gt => (f + 1)%Z
  | Eq => if Z.even f then f else (f + 1)%Z
  end.

(** Every finite binary64 value is an integer multiple of 2^-1074, the
    smallest positive one.  [ulp64] is that unit, as a divisor. *)
Definition ulp64 : Q := inject_Z (2 ^ 1074).

(** [lsb x] is the number of low bits that a 53-bit significand cannot hold
    when [x], measured in units of 2^-1074, is written in binary: none below
    2^53 (the subnormal and the first normal binades), one more for each
    further binade. *)
Definition lsb (x : Q) : Z := Z.max (Z.log2 (Qfloor (Qabs x)) - 52) 0.

(** [x] rounded to the nearest integer of at most 53 significant bits. *)
Definition round_int (x : Q) : Z :=
  let k := lsb x in
  (RNE (x / inject_Z (2 ^ k)) * 2 ^ k)%Z.

(** Binary64 rounding: a rounded magnitude of 2^1024 or more overflows to
    the infinity of its sign. *)
Definition rnd64 (q : Q) : number :=
  let n := round_int (q * ulp64) in
  if (2 ^ 2098 <=? Z.abs n)%Z then Inf (n <? 0)%Z
  else Fin (Qred (inject_Z n / ulp64)).

(** A numeric literal of the source denotes the nearest binary64 value. *)
Definition lit (q : Q) : number := rnd64 q.

(** The literals of the module, converted once as a JavaScript engine
    converts them when it reads the source. *)
Definition lit_10 : number := Eval vm_compute in lit 10.
Definition lit_6_25 : number := Eval vm_compute in lit 6.25.
Definition lit_5 : number := Eval vm_compute in lit 5.
Definition lit_161 : number := Eval vm_compute in lit 161.
Definition lit_1_2 : number := Eval vm_compute in lit 1.2.
Definition lit_1_375 : number := Eval vm_compute in lit 1.375.
Definition lit_1_55 : number := Eval vm_compute in lit 1.55.
Definition lit_1_725 : number := Eval vm_compute in lit 1.725.
Definition lit_1_9 : number := Eval vm_compute in lit 1.9.
Definition lit_0_8 : number := Eval vm_compute in lit 0.8.
Definition lit_1_15 : number := Eval vm_compute in lit 1.15.
Definition lit_2 : number := Eval vm_compute in lit 2.
Definition lit_0_25 : number := Eval vm_compute in lit 0.25.
Definition lit_9 : number := Eval vm_compute in lit 9.
Definition lit_4 : number := Eval vm_compute in lit 4.
Definition lit_0_3 : number := Eval vm_compute in lit 0.3.
Definition lit_0_45 : number := Eval vm_compute in lit 0.45.

Definition fadd (x y : number) : number :=
  match x, y with
  | NaN, _ | _, NaN => NaN
  | Inf s, Inf t => if Bool.eqb s t then Inf s else NaN
  | Inf s, Fin _ => Inf s
  | Fin _, Inf t => Inf t
  | Fin a, Fin b => rnd64 (a + b)
  end.

Definition fsub (x y : number) : number :=
  match x, y with
  | NaN, _ | _, NaN => NaN
  | Inf s, Inf t => if Bool.eqb s t then NaN else Inf s
  | Inf s, Fin _ => Inf s
  | Fin _, Inf t => Inf (negb t)
  | Fin a, Fin b => rnd64 (a - b)
  end.

Definition Qneg (q : Q) : bool := (Qnum q <? 0)%Z.
Definition Qzero (q : Q) : bool := (Qnum q =? 0)%Z.

Definition fmul (x y : number) : number :=
  match x, y with
  | NaN, _ | _, NaN => NaN
  | Inf s, Inf t => Inf (xorb s t)
  | Inf s, Fin b => if Qzero b then NaN else Inf (xorb s (Qneg b))
  | Fin a, Inf t => if Qzero a then NaN else Inf (xorb (Qneg a) t)
  | Fin a, Fin b => rnd64 (a * b)
  end.

(** Division.  A zero divisor is taken as +0; the source divides by the
    literals 9 and 4 only. *)
Definition fdiv (x y : number) : number :=
  match x, y with
  | NaN, _ | _, NaN => NaN
  | Inf s, Inf t => NaN
  | Inf s, Fin b => Inf (xorb s (Qneg b))
  | Fin a, Inf t => Fin 0
  | Fin a, Fin b =>
      if Qzero b then (if Qzero a then NaN else Inf (Qneg a))
      else rnd64 (a / b)
  end.

(** The comparisons [<] and [<=] of JavaScript: false as soon as one side
    is NaN. *)
Definition flt (x y : number) : bool :=
  match x, y with
  | NaN, _ | _, NaN => false
  | Inf s, Inf t => s && negb t
  | Inf s, Fin _ => s
  | Fin _, Inf t => negb t
  | Fin a, Fin b => negb (Qle_bool b a)
  end.

Definition fle (x y : number) : bool :=
  match x, y with
  | NaN, _ | _, NaN => false
  | Inf s, Inf t => s || negb t
  | Inf s, Fin _ => s
  | Fin _, Inf t => negb t
  | Fin a, Fin b => Qle_bool a b
  end.

(** [Math.round]: the nearest integer, a tie going to the one closer to
    plus infinity; NaN and the infinities are returned unchanged. *)
Definition Math_round (x : number) : number :=
  match x with
  | Fin q => Fin (inject_Z (Qfloor (q + (1 # 2))))
  | _ => x
  end.

(** [Number.isInteger]. *)
Definition is_integer (x : number) : bool :=
  match x with
  | Fin q => Pos.eqb (Qden (Qred q)) 1
  | _ => false
  end.

Definition is_finite (x : number) : bool :=
  match x with Fin _ => true | _ => false end.

Definition is_nan (x : number) : bool :=
  match x with NaN => true | _ => false end.

Declare Scope js_scope.
Delimit Scope js_scope with js.
Bind Scope js_scope with number.
Infix "+" := fadd : js_scope.
Infix "-" := fsub : js_scope.
Infix "*" := fmul : js_scope.
Infix "/" := fdiv : js_scope.

(** ** The module *)

Inductive Gender : Type := male | female.

Inductive ActivityLevel : Type :=
| sedentary | lightly_active | moderately_active | very_active | extra_active.

Record UserDetails : Type := {
  height : number;
  weight : number;
  age : number;
  gender : Gender;
  activity_level : ActivityLevel
}.

Record CalorieResults : Type := {
  maintenance_calories : number;
  cut_calories : number;
  bulk_calories : number;
  protein_grams : number;
  carbs_grams : number;
  fat_grams : number
}.

Definition ACTIVITY_MULTIPLIERS (a : ActivityLevel) : number :=
  match a with
  | sedentary => lit_1_2
  | lightly_active => lit_1_375
  | moderately_active => lit_1_55
  | very_active => lit_1_725
  | extra_active => lit_1_9
  end.

Definition calculateBMR (weight height age : number) (gender : Gender) : number :=
  match gender with
  | male => (lit_10 * weight + lit_6_25 * height - lit_5 * age + lit_5)%js
  | female => (lit_10 * weight + lit_6_25 * height - lit_5 * age - lit_161)%js
  end.

Definition calculateCalories (details : UserDetails) : CalorieResults :=
  let bmr := calculateBMR (weight details) (height details) (age details)
               (gender details) in
  let maintenance :=
    Math_round (bmr * ACTIVITY_MULTIPLIERS (activity_level details))%js in
  let cut := Math_round (maintenance * lit_0_8)%js in
  let bulk := Math_round (maintenance * lit_1_15)%js in
  let protein := Math_round (weight details * lit_2)%js in
  let fatCalories := Math_round (maintenance * lit_0_25)%js in
  let fat := Math_round (fatCalories / lit_9)%js in
  let proteinCalories := (protein * lit_4)%js in
  let carbCalories := (maintenance - proteinCalories - fatCalories)%js in
  let carbs := Math_round (carbCalories / lit_4)%js in
  {| maintenance_calories := maintenance;
     cut_calories := cut;
     bulk_calories := bulk;
     protein_grams := protein;
     carbs_grams := carbs;
     fat_grams := fat |}.

Inductive GoalType : Type := cut | bulk | maintain.

Record GoalCalorieResult : Type := {
  calories : number;
  protein : number;
  carbs : number;
  fat : number
}.

Definition getGoalCalories (maintenance : number) (goalType : GoalType)
  : GoalCalorieResult :=
  let targetCalories :=
    match goalType with
    | cut => Math_round (maintenance * lit_0_8)%js
    | bulk => Math_round (maintenance * lit_1_15)%js
    | maintain => maintenance
    end in
  let protein := Math_round ((targetCalories * lit_0_3) / lit_4)%js in
  let fat := Math_round ((targetCalories * lit_0_25) / lit_9)%js in
  let carbs := Math_round ((targetCalories * lit_0_45) / lit_4)%js in
  {| calories := targetCalories;
     protein := protein;
     carbs := carbs;
     fat := fat |}.

(** Conversion from the hardware binary64 numbers of the kernel, used to
    cross-check the rounding above. *)
Definition of_float (f : float) : number :=
  match Prim2SF f with
  | S754_zero _ => Fin 0
  | S754_infinity s => Inf s
  | S754_nan => NaN
  | S754_finite s m e =>
      Fin (Qred (inject_Z (if s then Z.neg m else Z.pos m) * 2 ^ e))
  end.


(** Intermediate values of [calculateCalories], named as in its body. *)
Definition bmr_of (details : UserDetails) : number :=
  calculateBMR (weight details) (height details) (age details)
    (gender details).

Definition fatCalories_of (details : UserDetails) : number :=
  Math_round (maintenance_calories (calculateCalories details) * lit_0_25)%js.

Definition proteinCalories_of (details : UserDetails) : number :=
  (protein_grams (calculateCalories details) * lit_4)%js.

Definition carbCalories_of (details : UserDetails) : number :=
  (maintenance_calories (calculateCalories details)
   - proteinCalories_of details - fatCalories_of details)%js.

(** The Mifflin-St Jeor equation as the specification words it. *)
Definition spec_BMR (weight height age : number) (gender : Gender) : number :=
  match gender with
  | male => (lit_10 * weight + lit_6_25 * height - lit_5 * age + lit_5)%js
  | female => (lit_10 * weight + lit_6_25 * height - lit_5 * age - lit_161)%js
  end.

(** The target of [getGoalCalories] as the specification words it. *)
Definition spec_target (maintenance : number) (goalType : GoalType) : number :=
  match goalType with
  | maintain => maintenance
  | cut => Math_round (maintenance * lit_0_8)%js
  | bulk => Math_round (maintenance * lit_1_15)%js
  end.

(** The worked example of the specification: male, 30 y, 80 kg, 180 cm,
    moderately active. *)
Definition example_male : UserDetails :=
  {| height := Fin 180; weight := Fin 80; age := Fin 30;
     gender := male; activity_level := moderately_active |}.

(** The second worked example: female, 25 y, 60 kg, 165 cm, sedentary. *)
Definition example_female : UserDetails :=
  {| height := Fin 165; weight := Fin 60; age := Fin 25;
     gender := female; activity_level := sedentary |}.

(** A user at the edge of the validated ranges whose maintenance is too low
    for the protein and fat shares: 30.4 kg, 100 cm, 100 y. *)
Definition example_low : UserDetails :=
  {| height := Fin 100; weight := lit 30.4; age := Fin 100;
     gender := female; activity_level := sedentary |}.

(** The range checks of the form that feeds the calculator: height 100 to
    250 cm, weight 30 to 300 kg, age 13 to 100, bounds included. *)
Definition in_range (lo hi : Q) (x : number) : bool :=
  fle (Fin lo) x && fle x (Fin hi).

Definition valid_details (details : UserDetails) : bool :=
  in_range 100 250 (height details)
  && in_range 30 300 (weight details)
  && in_range 13 100 (age details).

(** The largest finite binary64 value, [Number.MAX_VALUE]. *)
Definition MAX_VALUE : Q := inject_Z ((2 ^ 53 - 1) * 2 ^ 971).

(** A bound under which 1.15 times a maintenance stays finite:
    1.5 * 10^308, which lies above the binary64 value nearest to 1e308. *)
Definition maintenance_bound : Q := inject_Z (15 * 10 ^ 307).

(** Two users that differ in weight only, the age being so large that
    5 * age overflows: 2^1023 is a finite binary64 value. *)
Definition example_light : UserDetails :=
  {| height := Fin 1; weight := Fin 1; age := Fin (inject_Z (2 ^ 1023));
     gender := male; activity_level := sedentary |}.

Definition example_heavy : UserDetails :=
  {| height := Fin 1; weight := Fin (inject_Z (2 ^ 1023));
     age := Fin (inject_Z (2 ^ 1023));
     gender := male; activity_level := sedentary |}.

(** A heavier user, otherwise as [example_female]. *)
Definition example_female_heavier : UserDetails :=
  {| height := Fin 165; weight := Fin 61; age := Fin 25;
     gender := female; activity_level := sedentary |}.

(** A user whose carbohydrate calories are -6: 31 kg, 100 cm, 101 y. *)
Definition example_tie : UserDetails :=
  {| height := Fin 100; weight := Fin 31; age := Fin 101;
     gender := female; activity_level := sedentary |}.

(** ** Auxiliary notions of the rounding proofs *)

(** The significand handed to [RNE]: [x] with its [lsb x] low bits moved
    behind the binary point. *)
Definition significand (x : Q) : Q := x / inject_Z (2 ^ lsb x).

(** The integers of at most 53 significant bits. *)
Definition grid53 (n : Z) : Prop :=
  exists m j : Z, (Z.abs m < 2 ^ 53)%Z /\ (0 <= j)%Z /\ n = (m * 2 ^ j)%Z.

(** The finite binary64 values: in units of 2^-1074, the integers of at
    most 53 significant bits below 2^2098, that is, below 2^1024. *)
Definition representable (q : Q) : Prop :=
  exists n : Z,
    grid53 n /\ (Z.abs n < 2 ^ 2098)%Z /\ q * ulp64 == inject_Z n.

(** [between lo hi x]: [x] is finite and lies in the closed interval. *)
Definition between (lo hi : Q) (x : number) : Prop :=
  match x with
  | Fin q => lo <= q <= hi
  | _ => False
  end.

(** The unit roundoff of the binary64 format, 2^-53. *)
Definition unit_roundoff : Q := 1 # 9007199254740992.

(** The rational value of a finite number. *)
Definition value (x : number) : Q :=
  match x with
  | Fin q => q
  | _ => 0
  end.

(** The Mifflin-St Jeor equation and the activity multipliers over the
    rationals, without any rounding. *)
Definition exact_BMR (w h a : Q) (g : Gender) : Q :=
  10 * w + (25 # 4) * h - 5 * a
  + match g with male => 5 | female => - (161) end.

Definition exact_multiplier (l : ActivityLevel) : Q :=
  match l with
  | sedentary => 12 # 10
  | lightly_active => 1375 # 1000
  | moderately_active => 155 # 100
  | very_active => 1725 # 1000
  | extra_active => 19 # 10
  end.

Definition exact_maintenance (details : UserDetails) : Q :=
  exact_BMR (value (weight details)) (value (height details))
    (value (age details)) (gender details)
  * exact_multiplier (activity_level details).

(** [rounds_to q n]: the integer [n] is nearest to [q], a tie going up,
    but for a margin of 1e-9 that covers the binary64 roundings. *)
Definition rounds_to (q : Q) (n : Z) : Prop :=
  q - (1 # 2) - (1 # 1000000000) < inject_Z n
  <= q + (1 # 2) + (1 # 1000000000).

(** The two users at the ends of the validated ranges. *)
Definition example_min : UserDetails :=
  {| height := Fin 100; weight := Fin 30; age := Fin 100;
     gender := female; activity_level := sedentary |}.

Definition example_max : UserDetails :=
  {| height := Fin 250; weight := Fin 300; age := Fin 13;
     gender := male; activity_level := extra_active |}.

(** A validated user of 30.25 kg, 100 cm and 100 y. *)
Definition example_thin : UserDetails :=
  {| height := Fin 100; weight := Fin (121 # 4); age := Fin 100;
     gender := female; activity_level := sedentary |}.

(** Two validated users that differ in weight only, by a quarter of a
    kilogram. *)
Definition example_32 : UserDetails :=
  {| height := Fin 170; weight := Fin 32; age := Fin 30;
     gender := male; activity_level := sedentary |}.

Definition example_32_25 : UserDetails :=
  {| height := Fin 170; weight := Fin (129 # 4); age := Fin 30;
     gender := male; activity_level := sedentary |}.

(** The same user with another gender. *)
Definition with_gender (g : Gender) (details : UserDetails) : UserDetails :=
  {| height := height details; weight := weight details; age := age details;
     gender := g; activity_level := activity_level details |}.

(** The activity levels in the order of the table. *)
Definition level_rank (l : ActivityLevel) : nat :=
  match l with
  | sedentary => 0
  | lightly_active => 1
  | moderately_active => 2
  | very_active => 3
  | extra_active => 4
  end.

(** A bound on the error of one rounding of a number below 2^15. *)
Definition tiny : Q := 1 # 100000000000.

(** [near e x q]: [x] is finite and within [e] of the rational [q]. *)
Definition near (e : Q) (x : number) (q : Q) : Prop :=
  match x with
  | Fin r => Qabs (r - q) <= e
  | _ => False
  end.

(** ** The details form

    [PremiumDetails.tsx] holds the form that collects the five fields of a
    user, the schema [detailsSchema] that checks them and the handler
    [handleSubmit] that saves them.  The handler is modelled by the list of
    what it does to the page and to the back end, in the order it does it. *)

Inductive Effect : Type :=
| preventDefault
| setIsLoading (loading : bool)
| toast_error (message : string)
| toast_success (message : string)
| navigate (path : string)
| upsert (user_id : string) (data : UserDetails).

(** The five state variables that the handler reads, all strings. *)
Record FormState : Type := {
  state_height : string;
  state_weight : string;
  state_age : string;
  state_gender : string;
  state_activityLevel : string
}.

(** The object [data] that the handler builds and hands to the schema. *)
Record FormData : Type := {
  data_height : number;
  data_weight : number;
  data_age : number;
  data_gender : string;
  data_activity_level : string
}.

(** An awaited call either throws or returns. *)
Inductive Awaited (A : Type) : Type :=
| thrown
| returned (a : A).

Arguments thrown {A}.
Arguments returned {A} a.

(** What the page takes from outside the repository: the two global
    functions that read a number in a string ([parseInt] gives NaN, here
    [None], or an integer), the messages that zod writes for the issues
    the schema gives no message for, the user of the session ([None] when
    nobody is logged in) and the error, if any, that the back end returns
    for an upsert. *)
Record Host : Type := {
  parseFloat : string -> number;
  parseInt : string -> option Z;
  invalid_type_message : string;
  invalid_enum_message : list string -> string -> string;
  getUser : Awaited (option string);
  upsert_error : string -> UserDetails -> Awaited (option string)
}.

Definition number_of_parseInt (r : option Z) : number :=
  match r with
  | Some n => rnd64 (inject_Z n)
  | None => NaN
  end.

(** [z.number().min(lo, lo_message).max(hi, hi_message)]: NaN is not a
    number for zod; a number below [lo] or above [hi] raises the message
    of the bound, the bounds themselves pass. *)
Definition number_issues (h : Host) (lo : Q) (lo_message : string)
    (hi : Q) (hi_message : string) (x : number) : list string :=
  match x with
  | NaN => [invalid_type_message h]
  | _ =>
      (if flt x (Fin lo) then [lo_message] else [])
      ++ (if flt (Fin hi) x then [hi_message] else [])
  end.

Definition gender_options : list string := ["male"%string; "female"%string].

Definition activity_level_options : list string :=
  ["sedentary"%string; "lightly_active"%string; "moderately_active"%string;
   "very_active"%string; "extra_active"%string].

Definition gender_of_string (s : string) : option Gender :=
  if String.eqb s "male" then Some male
  else if String.eqb s "female" then Some female
  else None.

Definition activity_level_of_string (s : string) : option ActivityLevel :=
  if String.eqb s "sedentary" then Some sedentary
  else if String.eqb s "lightly_active" then Some lightly_active
  else if String.eqb s "moderately_active" then Some moderately_active
  else if String.eqb s "very_active" then Some very_active
  else if String.eqb s "extra_active" then Some extra_active
  else None.

(** [z.enum(options)]. *)
Definition enum_issues {A : Type} (h : Host) (options : list string)
    (s : string) (parsed : option A) : list string :=
  match parsed with
  | Some _ => []
  | None => [invalid_enum_message h options s]
  end.

(** The issues of [detailsSchema], in the order of its keys. *)
Definition detailsSchema_issues (h : Host) (data : FormData) : list string :=
  number_issues h 100 "Height must be at least 100 cm"
    250 "Height must be less than 250 cm" (data_height data)
  ++ number_issues h 30 "Weight must be at least 30 kg"
       300 "Weight must be less than 300 kg" (data_weight data)
  ++ number_issues h 13 "Age must be at least 13"
       100 "Age must be less than 100" (data_age data)
  ++ enum_issues h gender_options (data_gender data)
       (gender_of_string (data_gender data))
  ++ enum_issues h activity_level_options (data_activity_level data)
       (activity_level_of_string (data_activity_level data)).

(** [detailsSchema.parse]: the validated object, or the issues of the
    [ZodError] that it throws. *)
Definition detailsSchema_parse (h : Host) (data : FormData)
  : list string + UserDetails :=
  match detailsSchema_issues h data,
        gender_of_string (data_gender data),
        activity_level_of_string (data_activity_level data) with
  | [], Some g, Some l =>
      inr {| height := data_height data;
             weight := data_weight data;
             age := data_age data;
             gender := g;
             activity_level := l |}
  | issues, _, _ => inl issues
  end.

Definition handleSubmit (h : Host) (st : FormState) : list Effect :=
  [preventDefault; setIsLoading true]
  ++ match getUser h with
     | thrown => [toast_error "Failed to save details. Please try again."]
     | returned None =>
         [toast_error "You must be logged in"; navigate "/auth"]
     | returned (Some user_id) =>
         let data :=
           {| data_height := parseFloat h (state_height st);
              data_weight := parseFloat h (state_weight st);
              data_age := number_of_parseInt (parseInt h (state_age st));
              data_gender := state_gender st;
              data_activity_level := state_activityLevel st |} in
         match detailsSchema_parse h data with
         | inl (message :: _) => [toast_error message]
         | inl [] => []
         | inr validatedData =>
             upsert user_id validatedData
             :: match upsert_error h user_id validatedData with
                | returned None =>
                    [toast_success "Details saved successfully!";
                     navigate "/premium-nutrition-tracker"]
                | _ =>
                    [toast_error "Failed to save details. Please try again."]
                end
         end
     end
  ++ [setIsLoading false].

(** The number of toasts in a list of effects. *)
Definition is_toast (e : Effect) : bool :=
  match e with
  | toast_error _ | toast_success _ => true
  | _ => false
  end.

Definition toasts (l : list Effect) : nat :=
  List.length (List.filter is_toast l).

(** A host whose session holds a user and whose back end accepts every
    upsert, and a form filled in by the worked example. *)
Definition example_host : Host :=
  {| parseFloat := fun s => if String.eqb s "180" then Fin 180 else Fin 80;
     parseInt := fun _ => Some 30%Z;
     invalid_type_message := "Expected number, received nan";
     invalid_enum_message := fun _ _ => "Invalid enum value"%string;
     getUser := returned (Some "user-1"%string);
     upsert_error := fun _ _ => returned None |}.

Definition example_state : FormState :=
  {| state_height := "180"; state_weight := "80"; state_age := "30";
     state_gender := "male"; state_activityLevel := "moderately_active" |}.

(** A host that reads an empty field as NaN, as [parseFloat] does, and
    three forms that differ from [example_state] in the height: empty, 50
    and 300. *)
Definition example_reader : Host :=
  {| parseFloat :=
       fun s =>
         if String.eqb s "" then NaN
         else if String.eqb s "50" then Fin 50
         else if String.eqb s "300" then Fin 300
         else Fin 80;
     parseInt := fun _ => Some 30%Z;
     invalid_type_message := "Expected number, received nan";
     invalid_enum_message := fun _ _ => "Invalid enum value"%string;
     getUser := returned (Some "user-1"%string);
     upsert_error := fun _ _ => returned None |}.

Definition example_state_empty : FormState :=
  {| state_height := ""; state_weight := "80"; state_age := "30";
     state_gender := "male"; state_activityLevel := "moderately_active" |}.

Definition example_state_50 : FormState :=
  {| state_height := "50"; state_weight := "80"; state_age := "30";
     state_gender := "male"; state_activityLevel := "moderately_active" |}.

Definition example_state_300 : FormState :=
  {| state_height := "300"; state_weight := "80"; state_age := "30";
     state_gender := "male"; state_activityLevel := "moderately_active" |}.

(** ** The module as a program over its store

    The module owns one object, the table [ACTIVITY_MULTIPLIERS]: it is
    built when the module is loaded, read by [calculateCalories] at every
    call, and not exported.  [Store] is the content of that object.  The
    two exported functions are written here as the programs they are:
    each takes the store and gives it back with its result. *)
Definition Store : Type := ActivityLevel -> number.

(** The store once the module is loaded. *)
Definition module_load : Store := ACTIVITY_MULTIPLIERS.

Definition Prog (A : Type) : Type := Store -> A * Store.

Definition ret {A : Type} (a : A) : Prog A := fun s => (a, s).

Definition bind {A B : Type} (p : Prog A) (f : A -> Prog B) : Prog B :=
  fun s => let (a, s') := p s in f a s'.

(** [ACTIVITY_MULTIPLIERS[level]]: a read of the object. *)
Definition lookup (level : ActivityLevel) : Prog number :=
  fun s => (s level, s).

Definition calculateCalories_prog (details : UserDetails)
  : Prog CalorieResults :=
  let bmr := calculateBMR (weight details) (height details) (age details)
               (gender details) in
  bind (lookup (activity_level details)) (fun multiplier =>
  let maintenance := Math_round (bmr * multiplier)%js in
  let cut := Math_round (maintenance * lit_0_8)%js in
  let bulk := Math_round (maintenance * lit_1_15)%js in
  let protein := Math_round (weight details * lit_2)%js in
  let fatCalories := Math_round (maintenance * lit_0_25)%js in
  let fat := Math_round (fatCalories / lit_9)%js in
  let proteinCalories := (protein * lit_4)%js in
  let carbCalories := (maintenance - proteinCalories - fatCalories)%js in
  let carbs := Math_round (carbCalories / lit_4)%js in
  ret {| maintenance_calories := maintenance;
         cut_calories := cut;
         bulk_calories := bulk;
         protein_grams := protein;
         carbs_grams := carbs;
         fat_grams := fat |}).

(** [getGoalCalories] names no object of the module. *)
Definition getGoalCalories_prog (maintenance : number) (goalType : GoalType)
  : Prog GoalCalorieResult :=
  ret (getGoalCalories maintenance goalType).

(** A call of one of the two exported functions, and the store that a
    call, or a list of calls, leaves behind. *)
Inductive Call : Type :=
| call_calculateCalories (details : UserDetails)
| call_getGoalCalories (maintenance : number) (goalType : GoalType).

Definition after_call (c : Call) (s : Store) : Store :=
  match c with
  | call_calculateCalories details => snd (calculateCalories_prog details s)
  | call_getGoalCalories maintenance goalType =>
      snd (getGoalCalories_prog maintenance goalType s)
  end.

Definition after_calls (history : list Call) (s : Store) : Store :=
  fold_left (fun s' c => after_call c s') history s.

(** * Properties of the rounding *)

(** ** Rounding to 53 significant bits *)

Lemma inject_Z_pred (n : Z) : inject_Z (n - 1) = inject_Z n - 1.
Proof. unfold Z.sub. rewrite inject_Z_plus, inject_Z_opp. reflexivity. Qed.

Lemma inject_Z_succ (n : Z) : inject_Z (n + 1) = inject_Z n + 1.
Proof. rewrite inject_Z_plus. reflexivity. Qed.

Lemma Qred_inject_Z (n : Z) : Qred (inject_Z n) = inject_Z n.
Proof.
  apply Qred_identity. cbn. apply Z.gcd_1_r.
Qed.

Lemma Qzero_false (q : Q) : 0 < q -> Qzero q = false.
Proof.
  destruct q as [n d]. unfold Qzero, Qlt. cbn. intros H.
  apply Z.eqb_neq. lia.
Qed.

Lemma Qneg_false (q : Q) : 0 < q -> Qneg q = false.
Proof.
  destruct q as [n d]. unfold Qneg, Qlt. cbn. intros H.
  apply Z.ltb_ge. lia.
Qed.

Lemma Qneg_true (q : Q) : q < 0 -> Qneg q = true.
Proof.
  destruct q as [n d]. unfold Qneg, Qlt. cbn. intros H.
  apply Z.ltb_lt. lia.
Qed.

Lemma Qfloor_bounds (x : Q) :
  inject_Z (Qfloor x) <= x < inject_Z (Qfloor x) + 1.
Proof.
  split; [apply Qfloor_le|].
  generalize (Qlt_floor x). rewrite inject_Z_plus. trivial.
Qed.

Lemma Qfloor_half (k : Z) : Qfloor (inject_Z k + (1 # 2)) = k.
Proof.
  pose proof (Qfloor_bounds (inject_Z k + (1 # 2))) as [Hl Hu].
  set (f := Qfloor (inject_Z k + (1 # 2))) in *.
  assert (H1 : inject_Z f < inject_Z (k + 1))
    by (rewrite inject_Z_succ; lra).
  assert (H2 : inject_Z k < inject_Z (f + 1))
    by (rewrite inject_Z_succ; lra).
  rewrite <- Zlt_Qlt in H1, H2. lia.
Qed.

Lemma RNE_bounds (x : Q) : (Qfloor x <= RNE x <= Qfloor x + 1)%Z.
Proof.
  unfold RNE. destruct (Qcompare _ _); [destruct (Z.even _)| |]; lia.
Qed.

Lemma RNE_Z (n : Z) : RNE (inject_Z n) = n.
Proof.
  unfold RNE. rewrite Qfloor_Z.
  destruct (Qcompare_spec (inject_Z n - inject_Z n) (1 # 2)) as [H|H|H];
    trivial; exfalso; lra.
Qed.

Lemma RNE_mono (x y : Q) : x <= y -> (RNE x <= RNE y)%Z.
Proof.
  intros Hxy.
  pose proof (Qfloor_resp_le _ _ Hxy) as Hf.
  pose proof (RNE_bounds x) as Bx. pose proof (RNE_bounds y) as By.
  destruct (Z.eq_dec (Qfloor x) (Qfloor y)) as [E|E]; [|lia].
  revert Bx By. unfold RNE. rewrite <- E.
  destruct (Qcompare_spec (x - inject_Z (Qfloor x)) (1 # 2)) as [Hx|Hx|Hx];
    destruct (Qcompare_spec (y - inject_Z (Qfloor x)) (1 # 2)) as [Hy|Hy|Hy];
    destruct (Z.even (Qfloor x)); intros; try lia; exfalso; lra.
Qed.

#[local] Instance RNE_comp : Proper (Qeq ==> eq) RNE.
Proof.
  intros x y E. unfold RNE.
  assert (Hf : Qfloor x = Qfloor y) by (apply Qfloor_comp; exact E).
  rewrite <- Hf.
  assert (Hc : Qcompare (x - inject_Z (Qfloor x)) (1 # 2)
               = Qcompare (y - inject_Z (Qfloor x)) (1 # 2))
    by (apply Qcompare_comp; [apply Qplus_comp; [exact E|]|]; reflexivity).
  cbv zeta. rewrite Hc. reflexivity.
Qed.

Lemma RNE_le_Z (x : Q) (n : Z) : x <= inject_Z n -> (RNE x <= n)%Z.
Proof. intros H. rewrite <- (RNE_Z n). apply RNE_mono, H. Qed.

Lemma RNE_ge_Z (x : Q) (n : Z) : inject_Z n <= x -> (n <= RNE x)%Z.
Proof. intros H. rewrite <- (RNE_Z n). apply RNE_mono, H. Qed.

(** [RNE x] is an integer nearest to [x]. *)
Lemma RNE_nearest (x : Q) (n : Z) :
  Qabs (x - inject_Z (RNE x)) <= Qabs (x - inject_Z n).
Proof.
  pose proof (Qfloor_bounds x) as [Hl Hu].
  assert (Hn : inject_Z n <= inject_Z (Qfloor x)
               \/ inject_Z (Qfloor x) + 1 <= inject_Z n).
  { rewrite <- inject_Z_succ, <- !Zle_Qle. lia. }
  unfold RNE.
  destruct (Qcompare_spec (x - inject_Z (Qfloor x)) (1 # 2)) as [H|H|H];
    [destruct (Z.even (Qfloor x))| |];
    rewrite ?inject_Z_succ;
    apply Qabs_case; intros; apply Qabs_case; intros; lra.
Qed.

(** On a tie [RNE] returns the even neighbour. *)
Lemma RNE_tie_even (x : Q) :
  x - inject_Z (Qfloor x) == 1 # 2 -> Z.even (RNE x) = true.
Proof.
  intros H. unfold RNE.
  destruct (Qcompare_spec (x - inject_Z (Qfloor x)) (1 # 2)) as [_|H'|H'];
    [|exfalso; lra..].
  destruct (Z.even (Qfloor x)) eqn:E; [exact E|].
  rewrite Z.even_add, E. reflexivity.
Qed.

Lemma pow2_pos (k : Z) : (0 < 2 ^ k)%Z -> 0 < inject_Z (2 ^ k).
Proof. intros H. rewrite Zlt_Qlt in H. exact H. Qed.

Lemma lsb_nonneg (x : Q) : (0 <= lsb x)%Z.
Proof. unfold lsb. lia. Qed.

Lemma lsb_mono (x y : Q) : Qabs x <= Qabs y -> (lsb x <= lsb y)%Z.
Proof.
  intros H. unfold lsb.
  pose proof (Z.log2_le_mono _ _ (Qfloor_resp_le _ _ H)). lia.
Qed.

(** The magnitude of [x] against the powers of two that [lsb x] selects. *)
Lemma lsb_upper (x : Q) : Qabs x < inject_Z (2 ^ (lsb x + 53)).
Proof.
  unfold lsb.
  pose proof (Qfloor_bounds (Qabs x)) as [_ Hu].
  pose proof (Qfloor_resp_le _ _ (Qabs_nonneg x)) as Hn.
  change (Qfloor 0) with 0%Z in Hn.
  set (N := Qfloor (Qabs x)) in *.
  assert (HN : (N + 1 <= 2 ^ (Z.log2 N + 1))%Z).
  { destruct (Z.eq_dec N 0) as [->|Hnz]; [cbn; lia|].
    pose proof (Z.log2_spec N ltac:(lia)). lia. }
  assert (Hp : (2 ^ (Z.log2 N + 1) <= 2 ^ (Z.max (Z.log2 N - 52) 0 + 53))%Z)
    by (apply Z.pow_le_mono_r; lia).
  assert (H : (N + 1 <= 2 ^ (Z.max (Z.log2 N - 52) 0 + 53))%Z) by lia.
  rewrite Zle_Qle, inject_Z_plus in H. change (inject_Z 1) with 1 in H. lra.
Qed.

Lemma lsb_lower (x : Q) :
  (0 < lsb x)%Z -> inject_Z (2 ^ (lsb x + 52)) <= Qabs x.
Proof.
  unfold lsb. intros Hk.
  pose proof (Qfloor_bounds (Qabs x)) as [Hl _].
  set (N := Qfloor (Qabs x)) in *.
  assert (HL : (52 < Z.log2 N)%Z) by lia.
  assert (HN : (0 < N)%Z).
  { destruct (Z.lt_trichotomy N 0) as [H|[H|H]]; trivial.
    - rewrite (Z.log2_nonpos N) in HL; lia.
    - rewrite H in HL. cbn in HL. lia. }
  pose proof (Z.log2_spec N HN) as [H _].
  replace (Z.max (Z.log2 N - 52) 0 + 52)%Z with (Z.log2 N) by lia.
  rewrite Zle_Qle in H. lra.
Qed.

Lemma pow2_lsb_pos (x : Q) : 0 < inject_Z (2 ^ lsb x).
Proof.
  apply pow2_pos. apply Z.pow_pos_nonneg; [lia|apply lsb_nonneg].
Qed.

Lemma pow2_split (k c : Z) :
  (0 <= k)%Z -> (0 <= c)%Z ->
  inject_Z (2 ^ (k + c)) = inject_Z (2 ^ c) * inject_Z (2 ^ k).
Proof.
  intros. rewrite Z.pow_add_r, Z.mul_comm, inject_Z_mult by lia. reflexivity.
Qed.

Lemma significand_lt (x : Q) :
  - inject_Z (2 ^ 53) < significand x < inject_Z (2 ^ 53).
Proof.
  pose proof (lsb_upper x) as H.
  rewrite pow2_split in H by (try apply lsb_nonneg; lia).
  pose proof (pow2_lsb_pos x) as Hp.
  pose proof (Qle_Qabs x) as H1.
  pose proof (Qle_Qabs (- x)) as H2. rewrite Qabs_opp in H2.
  unfold significand. split.
  - apply Qlt_shift_div_l; [exact Hp|]. lra.
  - apply Qlt_shift_div_r; [exact Hp|]. lra.
Qed.

Lemma significand_ge (x : Q) :
  (0 < lsb x)%Z -> 0 <= x -> inject_Z (2 ^ 52) <= significand x.
Proof.
  intros Hk Hx. pose proof (lsb_lower x Hk) as H.
  rewrite pow2_split in H by lia.
  rewrite (Qabs_pos x Hx) in H.
  apply Qle_shift_div_l; [apply pow2_lsb_pos|exact H].
Qed.

Lemma significand_le (x : Q) :
  (0 < lsb x)%Z -> x <= 0 -> significand x <= - inject_Z (2 ^ 52).
Proof.
  intros Hk Hx. pose proof (lsb_lower x Hk) as H.
  rewrite pow2_split in H by lia.
  rewrite (Qabs_neg x Hx) in H.
  apply Qle_shift_div_r; [apply pow2_lsb_pos|]. lra.
Qed.

Lemma significand_sign_pos (x : Q) : 0 <= x -> 0 <= significand x.
Proof.
  intros. apply Qle_shift_div_l; [apply pow2_lsb_pos|]. lra.
Qed.

Lemma significand_sign_neg (x : Q) : x <= 0 -> significand x <= 0.
Proof.
  intros. apply Qle_shift_div_r; [apply pow2_lsb_pos|]. lra.
Qed.

Lemma round_int_eq (x : Q) :
  round_int x = (RNE (significand x) * 2 ^ lsb x)%Z.
Proof. reflexivity. Qed.

(** Rounding to 53 significant bits is monotone. *)
Lemma round_int_mono (x y : Q) : x <= y -> (round_int x <= round_int y)%Z.
Proof.
  intros Hxy. rewrite !round_int_eq.
  pose proof (significand_lt x) as [Hxl Hxu].
  pose proof (significand_lt y) as [Hyl Hyu].
  pose proof (lsb_nonneg x) as Hkx. pose proof (lsb_nonneg y) as Hky.
  assert (Hpx : (0 < 2 ^ lsb x)%Z) by (apply Z.pow_pos_nonneg; lia).
  assert (Hpy : (0 < 2 ^ lsb y)%Z) by (apply Z.pow_pos_nonneg; lia).
  assert (Hsame : lsb x = lsb y ->
                  (RNE (significand x) * 2 ^ lsb x
                   <= RNE (significand y) * 2 ^ lsb y)%Z).
  { intros E. rewrite <- E. apply Z.mul_le_mono_nonneg_r; [lia|].
    apply RNE_mono. unfold significand. rewrite <- E.
    apply Qmult_le_r; [apply Qinv_lt_0_compat, pow2_lsb_pos|exact Hxy]. }
  assert (Hstep : forall a b, (a < b)%Z -> (0 <= a)%Z ->
                  (2 * 2 ^ a <= 2 ^ b)%Z).
  { intros a b Hab Ha. replace b with (Z.succ a + (b - Z.succ a))%Z by lia.
    rewrite Z.pow_add_r, Z.pow_succ_r by lia.
    assert (0 < 2 ^ (b - Z.succ a))%Z by (apply Z.pow_pos_nonneg; lia).
    assert (0 < 2 ^ a)%Z by (apply Z.pow_pos_nonneg; lia). nia. }
  apply Qlt_le_weak in Hxl, Hxu, Hyl, Hyu.
  rewrite <- inject_Z_opp in Hxl, Hyl.
  apply RNE_ge_Z in Hxl, Hyl. apply RNE_le_Z in Hxu, Hyu.
  destruct (Qlt_le_dec x 0) as [Hx|Hx]; destruct (Qlt_le_dec y 0) as [Hy|Hy].
  - (* both negative *)
    assert (Hk : (lsb y <= lsb x)%Z).
    { apply lsb_mono. rewrite !Qabs_neg by lra. lra. }
    destruct (Z.eq_dec (lsb x) (lsb y)) as [E|E]; [auto|].
    pose proof (significand_le x ltac:(lia) ltac:(lra)) as Hb.
    rewrite <- inject_Z_opp in Hb. apply RNE_le_Z in Hb.
    pose proof (Hstep (lsb y) (lsb x) ltac:(lia) Hky).
    change (2 ^ 53)%Z with (2 * 2 ^ 52)%Z in *. nia.
  - (* x negative, y not *)
    pose proof (significand_sign_neg x ltac:(lra)) as Hsx.
    pose proof (significand_sign_pos y Hy) as Hsy.
    apply (RNE_le_Z _ 0) in Hsx. apply (RNE_ge_Z _ 0) in Hsy. nia.
  - exfalso. lra.
  - (* both non-negative *)
    assert (Hk : (lsb x <= lsb y)%Z).
    { apply lsb_mono. rewrite !Qabs_pos by lra. lra. }
    destruct (Z.eq_dec (lsb x) (lsb y)) as [E|E]; [auto|].
    pose proof (significand_ge y ltac:(lia) ltac:(lra)) as Hb.
    apply RNE_ge_Z in Hb.
    pose proof (Hstep (lsb x) (lsb y) ltac:(lia) Hkx).
    change (2 ^ 53)%Z with (2 * 2 ^ 52)%Z in *. nia.
Qed.

#[local] Instance lsb_comp : Proper (Qeq ==> eq) lsb.
Proof.
  intros x y E. unfold lsb.
  rewrite (Qfloor_comp _ _ (Qabs_wd _ _ E)). reflexivity.
Qed.

#[local] Instance round_int_comp : Proper (Qeq ==> eq) round_int.
Proof.
  intros x y E. unfold round_int. rewrite (lsb_comp _ _ E).
  f_equal. apply RNE_comp. apply Qmult_comp; [exact E|reflexivity].
Qed.

(** An integer of at most 53 significant bits is left as it is. *)
Lemma round_int_exact (m j : Z) :
  (Z.abs m < 2 ^ 53)%Z -> (0 <= j)%Z ->
  round_int (inject_Z (m * 2 ^ j)) = (m * 2 ^ j)%Z.
Proof.
  intros Hm Hj. unfold round_int.
  assert (Hk : (0 <= lsb (inject_Z (m * 2 ^ j)) <= j)%Z).
  { split; [apply lsb_nonneg|]. unfold lsb.
    change (Qabs (inject_Z (m * 2 ^ j))) with (inject_Z (Z.abs (m * 2 ^ j))).
    rewrite Qfloor_Z, Z.abs_mul, (Z.abs_eq (2 ^ j)) by (apply Z.pow_nonneg; lia).
    destruct (Z.eq_dec m 0) as [->|Hnz]; [cbn; lia|].
    rewrite Z.log2_mul_pow2 by lia.
    assert (Z.log2 (Z.abs m) < 53)%Z by (apply Z.log2_lt_pow2; lia). lia. }
  set (k := lsb (inject_Z (m * 2 ^ j))) in *.
  assert (Hp : (0 < 2 ^ k)%Z) by (apply Z.pow_pos_nonneg; lia).
  assert (Hs : inject_Z (m * 2 ^ j) / inject_Z (2 ^ k)
               == inject_Z (m * 2 ^ (j - k))).
  { replace (m * 2 ^ j)%Z with (m * 2 ^ (j - k) * 2 ^ k)%Z.
    - rewrite inject_Z_mult. apply Qdiv_mult_l.
      apply pow2_pos in Hp. lra.
    - rewrite <- Z.mul_assoc, <- Z.pow_add_r by lia. do 2 f_equal. lia. }
  rewrite (RNE_comp _ _ Hs), RNE_Z.
  rewrite <- Z.mul_assoc, <- Z.pow_add_r by lia. do 2 f_equal. lia.
Qed.

Lemma round_int_grid (x : Q) : grid53 (round_int x).
Proof.
  rewrite round_int_eq.
  pose proof (significand_lt x) as [Hl Hu].
  apply Qlt_le_weak in Hl, Hu. rewrite <- inject_Z_opp in Hl.
  apply RNE_ge_Z in Hl. apply RNE_le_Z in Hu.
  pose proof (lsb_nonneg x) as Hk.
  set (r := RNE (significand x)) in *.
  destruct (Z.eq_dec r (2 ^ 53)) as [E|E1];
    [|destruct (Z.eq_dec r (- 2 ^ 53)) as [E|E2]].
  - exists (2 ^ 52)%Z, (lsb x + 1)%Z. split; [reflexivity|]. split; [lia|].
    rewrite E, Z.pow_add_r by lia. generalize (2 ^ lsb x)%Z. intros. lia.
  - exists (- 2 ^ 52)%Z, (lsb x + 1)%Z. split; [reflexivity|]. split; [lia|].
    rewrite E, Z.pow_add_r by lia. generalize (2 ^ lsb x)%Z. intros. lia.
  - exists r, (lsb x). split; [lia|]. split; [lia|reflexivity].
Qed.

(** [round_int x] is nearest to [x] among the integers of at most 53
    significant bits. *)
Lemma round_int_nearest (x : Q) (v : Z) :
  grid53 v ->
  Qabs (x - inject_Z (round_int x)) <= Qabs (x - inject_Z v).
Proof.
  intros (m & j & Hm & Hj & ->).
  pose proof (lsb_nonneg x) as Hk.
  pose proof (pow2_lsb_pos x) as HP.
  assert (Hmult : forall n : Z,
             Qabs (x - inject_Z (round_int x))
             <= Qabs (x - inject_Z (n * 2 ^ lsb x))).
  { intros n. pose proof (RNE_nearest (significand x) n) as H.
    rewrite round_int_eq, !inject_Z_mult.
    assert (Es : x == significand x * inject_Z (2 ^ lsb x)).
    { unfold significand. field. lra. }
    assert (E1 : x - inject_Z (RNE (significand x)) * inject_Z (2 ^ lsb x)
                 == (significand x - inject_Z (RNE (significand x)))
                    * inject_Z (2 ^ lsb x)).
    { rewrite Es at 1. ring. }
    assert (E2 : x - inject_Z n * inject_Z (2 ^ lsb x)
                 == (significand x - inject_Z n) * inject_Z (2 ^ lsb x)).
    { rewrite Es at 1. ring. }
    rewrite E1, E2, !Qabs_Qmult, (Qabs_pos (inject_Z (2 ^ lsb x))) by lra.
    apply Qmult_le_compat_r; [exact H|lra]. }
  destruct (Z.le_gt_cases (lsb x) j) as [Hjk|Hjk].
  - replace (m * 2 ^ j)%Z with (m * 2 ^ (j - lsb x) * 2 ^ lsb x)%Z.
    + apply Hmult.
    + rewrite <- Z.mul_assoc, <- Z.pow_add_r by lia. do 2 f_equal. lia.
  - (* [v] lies below the binade of [x] *)
    pose proof (lsb_lower x ltac:(lia)) as Hx.
    rewrite pow2_split in Hx by lia.
    assert (Hv : (Z.abs (m * 2 ^ j) < 2 ^ 52 * 2 ^ lsb x)%Z).
    { rewrite Z.abs_mul, (Z.abs_eq (2 ^ j)) by (apply Z.pow_nonneg; lia).
      assert (2 * 2 ^ j <= 2 ^ lsb x)%Z.
      { replace (lsb x) with (Z.succ j + (lsb x - Z.succ j))%Z by lia.
        rewrite Z.pow_add_r, Z.pow_succ_r by lia.
        assert (0 < 2 ^ (lsb x - Z.succ j))%Z by (apply Z.pow_pos_nonneg; lia).
        assert (0 < 2 ^ j)%Z by (apply Z.pow_pos_nonneg; lia). nia. }
      assert (0 < 2 ^ j)%Z by (apply Z.pow_pos_nonneg; lia).
      change (2 ^ 53)%Z with (2 * 2 ^ 52)%Z in Hm. nia. }
    rewrite Zlt_Qlt, inject_Z_mult in Hv.
    change (inject_Z (Z.abs (m * 2 ^ j)))
      with (Qabs (inject_Z (m * 2 ^ j))) in Hv.
    set (V := inject_Z (m * 2 ^ j)) in *.
    set (G := inject_Z (2 ^ 52) * inject_Z (2 ^ lsb x)) in *.
    pose proof (Hmult (2 ^ 52)%Z) as H1. pose proof (Hmult (- 2 ^ 52)%Z) as H2.
    rewrite inject_Z_mult in H1, H2. rewrite inject_Z_opp in H2.
    fold G in H1. 
    assert (H2' : Qabs (x - inject_Z (round_int x)) <= Qabs (x + G)).
    { eapply Qle_trans; [exact H2|]. apply Qle_lteq. right.
      apply Qabs_wd. unfold G. ring. }
    clear H2. revert Hx Hv H1 H2'.
    generalize (Qabs (x - inject_Z (round_int x))). intros d.
    apply (Qabs_case x); intros; revert Hv H1 H2';
      apply (Qabs_case V); intros ? ?;
      apply (Qabs_case (x - G)); intros ? ?;
      apply (Qabs_case (x + G)); intros ? ?;
      apply (Qabs_case (x - V)); intros; lra.
Qed.

(** ** Binary64 rounding *)

Lemma ulp64_pos : 0 < ulp64.
Proof. reflexivity. Qed.

Lemma grid53_bound (m j : Z) :
  (Z.abs m < 2 ^ 53)%Z -> (0 <= j <= 2045)%Z ->
  (Z.abs (m * 2 ^ j) < 2 ^ 2098)%Z.
Proof.
  intros Hm Hj.
  rewrite Z.abs_mul, (Z.abs_eq (2 ^ j)) by (apply Z.pow_nonneg; lia).
  assert (2 ^ j <= 2 ^ 2045)%Z by (apply Z.pow_le_mono_r; lia).
  assert (0 < 2 ^ j)%Z by (apply Z.pow_pos_nonneg; lia).
  change (2 ^ 2098)%Z with (2 ^ 53 * 2 ^ 2045)%Z. nia.
Qed.

Lemma representable_intro (q : Q) (m j : Z) :
  (Z.abs m < 2 ^ 53)%Z -> (0 <= j <= 2045)%Z ->
  q * ulp64 == inject_Z (m * 2 ^ j) -> representable q.
Proof.
  intros Hm Hj E. exists (m * 2 ^ j)%Z. split; [|split].
  - exists m, j. split; [exact Hm|]. split; [lia|reflexivity].
  - apply grid53_bound; assumption.
  - exact E.
Qed.

(** Rounding leaves the binary64 values unchanged. *)
Lemma rnd64_representable (q : Q) : representable q -> rnd64 q = Fin (Qred q).
Proof.
  intros (n & (m & j & Hm & Hj & ->) & Hb & E). unfold rnd64.
  rewrite (round_int_comp _ _ E), round_int_exact by lia.
  destruct (Z.leb_spec (2 ^ 2098) (Z.abs (m * 2 ^ j))) as [H|_]; [lia|].
  f_equal. apply Qred_complete. rewrite <- E.
  apply Qdiv_mult_l. pose proof ulp64_pos. lra.
Qed.

Lemma representable_Z (n : Z) :
  (Z.abs n < 2 ^ 53)%Z -> representable (inject_Z n).
Proof.
  intros H. apply (representable_intro _ n 1074); [exact H|lia|].
  unfold ulp64. rewrite inject_Z_mult. reflexivity.
Qed.

(** An integer below 2^53 in magnitude is a binary64 value. *)
Lemma rnd64_Z (n : Z) :
  (Z.abs n < 2 ^ 53)%Z -> rnd64 (inject_Z n) = Fin (inject_Z n).
Proof.
  intros H. rewrite rnd64_representable by (apply representable_Z, H).
  rewrite Qred_inject_Z. reflexivity.
Qed.

(** A multiple of 1/16 with a numerator below 2^53 is a binary64 value. *)
Lemma rnd64_sixteenth (q : Q) (N : Z) :
  q == inject_Z N / 16 -> (Z.abs N < 2 ^ 53)%Z -> rnd64 q = Fin (Qred q).
Proof.
  intros E HN. apply rnd64_representable.
  apply (representable_intro _ N 1070); [exact HN|lia|].
  unfold ulp64. replace (2 ^ 1074)%Z with (16 * 2 ^ 1070)%Z by reflexivity.
  rewrite E, (inject_Z_mult N), (inject_Z_mult 16).
  change (inject_Z 16) with 16.
  generalize (inject_Z (2 ^ 1070)) (inject_Z N). intros P K. field.
Qed.

(** A finite result of [rnd64] is a binary64 value, and none is nearer. *)
Lemma rnd64_finite_nearest (q r : Q) :
  rnd64 q = Fin r ->
  representable r
  /\ forall v : Q, representable v -> Qabs (q - r) <= Qabs (q - v).
Proof.
  unfold rnd64. set (n := round_int (q * ulp64)).
  destruct (Z.leb_spec (2 ^ 2098) (Z.abs n)) as [|Hn]; [discriminate|].
  intros [= <-]. pose proof ulp64_pos as HU.
  assert (Er : Qred (inject_Z n / ulp64) * ulp64 == inject_Z n)
    by (rewrite Qred_correct; field; lra).
  split.
  - exists n. split; [apply round_int_grid|]. split; [exact Hn|exact Er].
  - intros v (nv & Hg & _ & Ev).
    pose proof (round_int_nearest (q * ulp64) nv Hg) as H. fold n in H.
    assert (E1 : q - Qred (inject_Z n / ulp64)
                 == (q * ulp64 - inject_Z n) * / ulp64)
      by (rewrite Qred_correct; field; lra).
    assert (E2 : q - v == (q * ulp64 - inject_Z nv) * / ulp64)
      by (rewrite <- Ev; field; lra).
    assert (Hi : 0 < / ulp64) by (apply Qinv_lt_0_compat, HU).
    rewrite E1, E2, !Qabs_Qmult, (Qabs_pos (/ ulp64)) by lra.
    apply Qmult_le_compat_r; [exact H|lra].
Qed.

(** [rnd64] overflows only from the middle of the largest finite value and
    2^1024 on, that is, from 2^1024 - 2^970, and towards the sign of its
    argument. *)
Lemma rnd64_overflow (q : Q) (s : bool) :
  rnd64 q = Inf s ->
  inject_Z (2 ^ 1024 - 2 ^ 970) <= Qabs q /\ s = Qneg q.
Proof.
  unfold rnd64. set (x := q * ulp64). set (n := round_int x).
  destruct (Z.leb_spec (2 ^ 2098) (Z.abs n)) as [Hn|]; [|discriminate].
  intros [= <-]. pose proof ulp64_pos as HU.
  set (M := ((2 ^ 53 - 1) * 2 ^ 2045)%Z).
  assert (HgM : grid53 M)
    by (exists (2 ^ 53 - 1)%Z, 2045%Z; split; [reflexivity|];
        split; [lia|reflexivity]).
  assert (HgM' : grid53 (- M))
    by (exists (- (2 ^ 53 - 1))%Z, 2045%Z; split; [reflexivity|];
        split; [lia|unfold M; ring]).
  assert (EM : round_int (inject_Z M) = M)
    by (apply round_int_exact; [reflexivity|lia]).
  assert (EM' : round_int (inject_Z (- M)) = (- M)%Z).
  { replace (- M)%Z with (- (2 ^ 53 - 1) * 2 ^ 2045)%Z by (unfold M; ring).
    apply round_int_exact; [reflexivity|lia]. }
  pose proof (round_int_nearest x M HgM) as N1.
  pose proof (round_int_nearest x (- M) HgM') as N2.
  fold n in N1, N2.
  assert (HM : (M + 2 ^ 2044 < 2 ^ 2098)%Z) by reflexivity.
  assert (HT : inject_Z (2 ^ 1024 - 2 ^ 970) * ulp64
               == inject_Z M + inject_Z (2 ^ 2044))
    by (unfold ulp64; rewrite <- inject_Z_mult, <- inject_Z_plus;
        apply inject_Z_injective; reflexivity).
  assert (Hq : Qabs q * ulp64 == Qabs x)
    by (unfold x; rewrite Qabs_Qmult, (Qabs_pos ulp64) by lra; reflexivity).
  destruct (Z.abs_spec n) as [[Hs E]|[Hs E]]; rewrite E in Hn.
  - (* overflow upwards *)
    assert (Hx : inject_Z M < x).
    { apply Qnot_le_lt. intros Hle. apply round_int_mono in Hle.
      fold n in Hle. rewrite EM in Hle. lia. }
    assert (Hn' : inject_Z M + inject_Z (2 ^ 2044) + inject_Z (2 ^ 2044)
                  <= inject_Z n).
    { rewrite <- !inject_Z_plus, <- Zle_Qle.
      replace (M + 2 ^ 2044 + 2 ^ 2044)%Z with (2 ^ 2098)%Z by reflexivity.
      exact Hn. }
    assert (0 < inject_Z (2 ^ 2044)) by reflexivity.
    assert (0 <= inject_Z M) by (rewrite <- (Zle_Qle 0); discriminate).
    split.
    + refine (proj1 (Qmult_le_r _ _ ulp64 HU) _). rewrite HT, Hq.
      rewrite (Qabs_pos x) by lra. revert N1.
      apply Qabs_case; intros ?; apply Qabs_case; intros; lra.
    + apply Z.ltb_ge in Hs. rewrite Hs. symmetry. apply Qneg_false.
      unfold x in Hx. nra.
  - (* overflow downwards *)
    assert (Hx : x < inject_Z (- M)).
    { apply Qnot_le_lt. intros Hle. apply round_int_mono in Hle.
      fold n in Hle. rewrite EM' in Hle. lia. }
    assert (Hn' : inject_Z n
                  <= - inject_Z M - inject_Z (2 ^ 2044) - inject_Z (2 ^ 2044)).
    { unfold Qminus. rewrite <- !inject_Z_opp, <- !inject_Z_plus, <- Zle_Qle.
      replace (- M + - 2 ^ 2044 + - 2 ^ 2044)%Z with (- 2 ^ 2098)%Z
        by reflexivity.
      lia. }
    rewrite inject_Z_opp in Hx, N2.
    assert (0 < inject_Z (2 ^ 2044)) by reflexivity.
    assert (0 <= inject_Z M) by (rewrite <- (Zle_Qle 0); discriminate).
    split.
    + refine (proj1 (Qmult_le_r _ _ ulp64 HU) _). rewrite HT, Hq.
      rewrite (Qabs_neg x) by lra. revert N2.
      apply Qabs_case; intros ?; apply Qabs_case; intros; lra.
    + apply Z.ltb_lt in Hs. rewrite Hs. symmetry. apply Qneg_true.
      unfold x in Hx. nra.
Qed.

(** Binary64 rounding is monotone, overflow included. *)
Lemma rnd64_mono (a b : Q) : a <= b -> fle (rnd64 a) (rnd64 b) = true.
Proof.
  intros Hab.
  assert (Hn : (round_int (a * ulp64) <= round_int (b * ulp64))%Z).
  { apply round_int_mono. apply Qmult_le_r; [apply ulp64_pos|exact Hab]. }
  unfold rnd64.
  set (na := round_int (a * ulp64)) in *.
  set (nb := round_int (b * ulp64)) in *.
  destruct (Z.leb_spec (2 ^ 2098) (Z.abs na)) as [Ha|Ha];
    destruct (Z.leb_spec (2 ^ 2098) (Z.abs nb)) as [Hb|Hb]; unfold fle.
  - destruct (Z.ltb_spec na 0), (Z.ltb_spec nb 0); trivial. exfalso. lia.
  - destruct (Z.ltb_spec na 0); trivial. exfalso. lia.
  - destruct (Z.ltb_spec nb 0); trivial. exfalso. lia.
  - apply Qle_bool_iff. apply Qred_le.
    apply Qmult_le_r; [apply Qinv_lt_0_compat, ulp64_pos|].
    rewrite <- Zle_Qle. exact Hn.
Qed.

Lemma rnd64_not_nan (q : Q) : is_nan (rnd64 q) = false.
Proof. unfold rnd64. cbv zeta. destruct (_ <=? _)%Z; reflexivity. Qed.

(** The largest integer of at most 53 significant bits below 2^2098. *)
Lemma grid53_max (n : Z) :
  grid53 n -> (Z.abs n < 2 ^ 2098)%Z ->
  (Z.abs n <= (2 ^ 53 - 1) * 2 ^ 2045)%Z.
Proof.
  intros (m & j & Hm & Hj & ->) H.
  rewrite Z.abs_mul, (Z.abs_eq (2 ^ j)) in * by (apply Z.pow_nonneg; lia).
  change (2 ^ 2098)%Z with (2 ^ 53 * 2 ^ 2045)%Z in H.
  assert (HP : (0 < 2 ^ 2045)%Z) by reflexivity.
  set (P := (2 ^ 2045)%Z) in *. set (a := Z.abs m) in *.
  destruct (Z_le_gt_dec j 2045) as [Hle|Hgt].
  - assert (2 ^ j <= P)%Z by (apply Z.pow_le_mono_r; lia).
    assert (0 < 2 ^ j)%Z by (apply Z.pow_pos_nonneg; lia).
    assert (0 <= a)%Z by apply Z.abs_nonneg.
    apply Z.mul_le_mono_nonneg; lia.
  - replace j with (2045 + (j - 2045))%Z in * by lia.
    rewrite Z.pow_add_r in * by lia. fold P in H |- *.
    assert (HK : (0 < 2 ^ (j - 2045))%Z) by (apply Z.pow_pos_nonneg; lia).
    set (K := (2 ^ (j - 2045))%Z) in *.
    assert (Ha : (a * K < 2 ^ 53)%Z).
    { apply (Z.mul_lt_mono_pos_r P); [exact HP|].
      replace (a * K * P)%Z with (a * (P * K))%Z by ring. exact H. }
    replace (a * (P * K))%Z with (a * K * P)%Z by ring.
    apply Z.mul_le_mono_nonneg_r; lia.
Qed.

(** A finite result of the rounding is at most [MAX_VALUE] in magnitude. *)
Lemma rnd64_finite_bound (q r : Q) :
  rnd64 q = Fin r -> - MAX_VALUE <= r <= MAX_VALUE.
Proof.
  unfold rnd64. set (n := round_int (q * ulp64)).
  destruct (Z.leb_spec (2 ^ 2098) (Z.abs n)) as [|Hn]; [discriminate|].
  intros [= <-]. pose proof ulp64_pos as HU.
  pose proof (grid53_max n (round_int_grid _) Hn) as HM.
  set (M := ((2 ^ 53 - 1) * 2 ^ 2045)%Z) in HM.
  assert (EM : MAX_VALUE * ulp64 == inject_Z M)
    by (unfold MAX_VALUE, ulp64; rewrite <- inject_Z_mult;
        apply inject_Z_injective; reflexivity).
  assert (Er : Qred (inject_Z n / ulp64) * ulp64 == inject_Z n)
    by (rewrite Qred_correct; field; lra).
  assert (Hn1 : inject_Z (- M) <= inject_Z n) by (rewrite <- Zle_Qle; lia).
  assert (Hn2 : inject_Z n <= inject_Z M) by (rewrite <- Zle_Qle; lia).
  rewrite inject_Z_opp in Hn1.
  split; refine (proj1 (Qmult_le_r _ _ ulp64 HU) _); rewrite Er.
  - setoid_replace (- MAX_VALUE * ulp64) with (- (MAX_VALUE * ulp64))
      by ring. rewrite EM. exact Hn1.
  - rewrite EM. exact Hn2.
Qed.

Lemma fle_NInf_rnd64 (q : Q) : fle (Inf true) (rnd64 q) = true.
Proof. unfold rnd64. destruct (_ <=? _)%Z; reflexivity. Qed.

Lemma fle_rnd64_PInf (q : Q) : fle (rnd64 q) (Inf false) = true.
Proof.
  unfold rnd64. destruct (_ <=? _)%Z; [destruct (_ <? _)%Z|]; reflexivity.
Qed.

Ltac rnd_eval := vm_compute; reflexivity.

(** ** Agreement with the binary64 numbers of the kernel

    The literals and a sample of operations, computed by [rnd64] and by the
    primitive floating-point numbers, give the same values, also when the
    result is subnormal, underflows to zero or overflows. *)

#[local] Set Warnings "-inexact-float".

Example literals_denote :
  lit_10 = lit 10 /\ lit_6_25 = lit 6.25 /\ lit_5 = lit 5
  /\ lit_161 = lit 161 /\ lit_1_2 = lit 1.2 /\ lit_1_375 = lit 1.375
  /\ lit_1_55 = lit 1.55 /\ lit_1_725 = lit 1.725 /\ lit_1_9 = lit 1.9
  /\ lit_0_8 = lit 0.8 /\ lit_1_15 = lit 1.15 /\ lit_2 = lit 2
  /\ lit_0_25 = lit 0.25 /\ lit_9 = lit 9 /\ lit_4 = lit 4
  /\ lit_0_3 = lit 0.3 /\ lit_0_45 = lit 0.45.
Proof. repeat apply conj; rnd_eval. Qed.

Example literals_agree :
  lit_10 = of_float 10 /\ lit_6_25 = of_float 6.25 /\ lit_5 = of_float 5
  /\ lit_161 = of_float 161 /\ lit_1_2 = of_float 1.2
  /\ lit_1_375 = of_float 1.375 /\ lit_1_55 = of_float 1.55
  /\ lit_1_725 = of_float 1.725 /\ lit_1_9 = of_float 1.9
  /\ lit_0_8 = of_float 0.8 /\ lit_1_15 = of_float 1.15
  /\ lit_2 = of_float 2 /\ lit_0_25 = of_float 0.25 /\ lit_9 = of_float 9
  /\ lit_4 = of_float 4 /\ lit_0_3 = of_float 0.3
  /\ lit_0_45 = of_float 0.45 /\ lit 30.4 = of_float 30.4.
Proof. repeat apply conj; rnd_eval. Qed.

Example products_agree :
  (Fin 1780 * lit_1_55)%js = of_float (1780 * 1.55)
  /\ (Fin (5381 # 4) * lit_1_2)%js = of_float (1345.25 * 1.2)
  /\ (Fin 2759 * lit_0_8)%js = of_float (2759 * 0.8)
  /\ (Fin 2759 * lit_1_15)%js = of_float (2759 * 1.15)
  /\ (Fin 2875 * lit_0_3)%js = of_float (2875 * 0.3)
  /\ (Fin 2875 * lit_0_45)%js = of_float (2875 * 0.45).
Proof. repeat apply conj; rnd_eval. Qed.

Example quotients_agree :
  (Fin 690 / lit_9)%js = of_float (690 / 9)
  /\ (Fin 625 / lit_9)%js = of_float (625 / 9)
  /\ (Fin (2875 # 4) / lit_9)%js = of_float (718.75 / 9)
  /\ (Fin (- 6) / lit_4)%js = of_float (-6 / 4).
Proof. repeat apply conj; rnd_eval. Qed.

Example sums_agree :
  (lit 0.1 + lit 0.2)%js = of_float (0.1 + 0.2)
  /\ (lit 0.3 - lit 0.1)%js = of_float (0.3 - 0.1)
  /\ (Fin (inject_Z (2 ^ 53)) + Fin 1)%js = of_float (0x1p53 + 1)
  /\ (Fin (inject_Z (2 ^ 53)) + Fin 3)%js = of_float (0x1p53 + 3).
Proof. repeat apply conj; rnd_eval. Qed.

Example range_ends_agree :
  (Fin (inject_Z (2 ^ 1023)) * lit_10)%js = of_float (0x1p1023 * 10)
  /\ (Fin (inject_Z (2 ^ 1023)) * lit_5)%js = Inf false
  /\ (Fin MAX_VALUE + Fin (inject_Z (2 ^ 969)))%js
     = of_float (0x1.fffffffffffffp1023 + 0x1p969)
  /\ (Fin MAX_VALUE + Fin (inject_Z (2 ^ 970)))%js
     = of_float (0x1.fffffffffffffp1023 + 0x1p970)
  /\ (Fin (1 # 2 ^ 1074) * Fin (1 # 2))%js = of_float (0x1p-1074 * 0.5)
  /\ (Fin (1 # 2 ^ 1074) * Fin (3 # 4))%js = of_float (0x1p-1074 * 0.75)
  /\ (Fin (3 # 2 ^ 1074) * Fin (1 # 2))%js = of_float (0x3p-1074 * 0.5).
Proof. repeat apply conj; rnd_eval. Qed.

(** ** Intervals of finite numbers *)

Lemma rnd64_between (lo hi lo' hi' q : Q) :
  rnd64 lo = Fin lo' -> rnd64 hi = Fin hi' ->
  lo <= q <= hi -> between lo' hi' (rnd64 q).
Proof.
  intros Hlo Hhi [H1 H2].
  pose proof (rnd64_mono _ _ H1) as L. pose proof (rnd64_mono _ _ H2) as U.
  rewrite Hlo in L. rewrite Hhi in U.
  destruct (rnd64 q) as [|s|v]; unfold fle, between in *; try discriminate.
  - destruct s; discriminate.
  - apply Qle_bool_iff in L, U. split; assumption.
Qed.

Lemma between_weaken (lo hi lo' hi' : Q) (x : number) :
  between lo hi x -> lo' <= lo -> hi <= hi' -> between lo' hi' x.
Proof.
  destruct x; unfold between; trivial. intros [? ?] ? ?. split; lra.
Qed.

Lemma between_finite (lo hi : Q) (x : number) :
  between lo hi x -> is_finite x = true.
Proof. destruct x; unfold between; [intros []..|reflexivity]. Qed.

Lemma between_point (c : Q) : between c c (Fin c).
Proof. unfold between. lra. Qed.

Lemma between_Z (a b n : Z) :
  (a <= n <= b)%Z -> between (inject_Z a) (inject_Z b) (Fin (inject_Z n)).
Proof. unfold between. rewrite <- !Zle_Qle. trivial. Qed.

Lemma in_range_between (lo hi : Q) (x : number) :
  in_range lo hi x = true -> between lo hi x.
Proof.
  unfold in_range, between, fle. destruct x as [|s|q].
  - discriminate.
  - destruct s; discriminate.
  - rewrite andb_true_iff, !Qle_bool_iff. trivial.
Qed.

Lemma fmul_between (a b c d lo hi : Q) (x y : number) :
  between a b x -> between c d y -> 0 <= a -> 0 <= c ->
  rnd64 (a * c) = Fin lo -> rnd64 (b * d) = Fin hi ->
  between lo hi (x * y)%js.
Proof.
  destruct x as [| |p], y as [| |q]; unfold between at 1 2; try tauto.
  intros [? ?] [? ?] ? ? Hlo Hhi. unfold fmul.
  apply (rnd64_between _ _ _ _ _ Hlo Hhi). split; nra.
Qed.

Lemma fadd_between (a b c d lo hi : Q) (x y : number) :
  between a b x -> between c d y ->
  rnd64 (a + c) = Fin lo -> rnd64 (b + d) = Fin hi ->
  between lo hi (x + y)%js.
Proof.
  destruct x as [| |p], y as [| |q]; unfold between at 1 2; try tauto.
  intros [? ?] [? ?] Hlo Hhi. unfold fadd.
  apply (rnd64_between _ _ _ _ _ Hlo Hhi). split; lra.
Qed.

Lemma fsub_between (a b c d lo hi : Q) (x y : number) :
  between a b x -> between c d y ->
  rnd64 (a - d) = Fin lo -> rnd64 (b - c) = Fin hi ->
  between lo hi (x - y)%js.
Proof.
  destruct x as [| |p], y as [| |q]; unfold between at 1 2; try tauto.
  intros [? ?] [? ?] Hlo Hhi. unfold fsub.
  apply (rnd64_between _ _ _ _ _ Hlo Hhi). split; lra.
Qed.

(** Division by a positive finite divisor. *)
Lemma fdiv_between (a b c lo hi : Q) (x : number) :
  between a b x -> 0 < c ->
  rnd64 (a / c) = Fin lo -> rnd64 (b / c) = Fin hi ->
  between lo hi (x / Fin c)%js.
Proof.
  destruct x as [| |p]; unfold between at 1; try tauto.
  intros [Ha Hb] Hpos Hlo Hhi. unfold fdiv.
  rewrite Qzero_false by exact Hpos.
  apply (rnd64_between _ _ _ _ _ Hlo Hhi).
  assert (Hi : 0 < / c) by (apply Qinv_lt_0_compat; exact Hpos).
  unfold Qdiv. split; apply Qmult_le_compat_r; lra.
Qed.

Lemma rnd64_MAX_VALUE : rnd64 MAX_VALUE = Fin MAX_VALUE.
Proof. vm_compute. reflexivity. Qed.

Lemma rnd64_MIN_VALUE : rnd64 (- MAX_VALUE) = Fin (- MAX_VALUE).
Proof. vm_compute. reflexivity. Qed.

(** Multiplying by a factor between 0 and [hi] keeps a number bounded by
    [A] in magnitude within any binary64 bound [B >= A * hi]. *)
Lemma fmul_bounded (A B lo hi : Q) (x c : number) :
  between (- A) A x -> between lo hi c -> 0 <= lo -> A * hi <= B ->
  rnd64 (- B) = Fin (- B) -> rnd64 B = Fin B ->
  between (- B) B (x * c)%js.
Proof.
  destruct x as [| |p], c as [| |q]; unfold between at 1 2; try tauto.
  intros [Hp1 Hp2] [Hq1 Hq2] Hlo HAB HB1 HB2. unfold fmul.
  apply (rnd64_between _ _ _ _ _ HB1 HB2).
  assert (0 <= A) by lra. split; nra.
Qed.

(** ** [Math.round] *)

Lemma Math_round_mono (x y : number) :
  fle x y = true -> fle (Math_round x) (Math_round y) = true.
Proof.
  destruct x as [|s|a], y as [|t|b]; unfold Math_round, fle; trivial.
  rewrite !Qle_bool_iff. intros H. rewrite <- Zle_Qle.
  apply Qfloor_resp_le. lra.
Qed.

(** [Math.round] of a finite number is an integer. *)
Lemma Math_round_integer (x : number) :
  is_finite x = true -> is_integer (Math_round x) = true.
Proof.
  destruct x as [|s|q]; try discriminate. intros _.
  unfold Math_round, is_integer. rewrite Qred_inject_Z. reflexivity.
Qed.

Lemma Math_round_nan (x : number) : is_nan (Math_round x) = is_nan x.
Proof. destruct x; reflexivity. Qed.

(** [Math.round] of a number of an interval is an integer of the interval
    rounded likewise. *)
Lemma Math_round_between (a b : Q) (x : number) :
  between a b x ->
  exists n : Z,
    Math_round x = Fin (inject_Z n)
    /\ (Qfloor (a + (1 # 2)) <= n <= Qfloor (b + (1 # 2)))%Z.
Proof.
  destruct x as [| |q]; unfold between; try tauto. intros [Ha Hb].
  exists (Qfloor (q + (1 # 2))). split; [reflexivity|].
  split; apply Qfloor_resp_le; lra.
Qed.

(** [Math.round] of a number between two integers. *)
Lemma Math_round_between_Z (a b : Z) (x : number) :
  between (inject_Z a) (inject_Z b) x ->
  exists n : Z, Math_round x = Fin (inject_Z n) /\ (a <= n <= b)%Z.
Proof.
  intros H. destruct (Math_round_between _ _ _ H) as (n & E & Hn).
  rewrite !Qfloor_half in Hn. exists n. split; assumption.
Qed.

(** [Math.round] sends a half-way value to the integer above it, whatever
    the sign. *)
Lemma Math_round_tie (k : Z) :
  Math_round (Fin (inject_Z k + (1 # 2))) = Fin (inject_Z (k + 1)).
Proof.
  unfold Math_round. do 2 f_equal.
  rewrite <- (Qfloor_Z (k + 1)). apply Qfloor_comp.
  rewrite inject_Z_succ. ring.
Qed.

(** Scaling an integer by a factor below one, then rounding. *)
Lemma scale_below (M : Z) (c : number) (lo hi : Q) :
  between lo hi c -> 0 <= lo -> (0 < M < 2 ^ 53)%Z ->
  inject_Z M * hi <= inject_Z (M - 1) ->
  exists n : Z,
    Math_round (Fin (inject_Z M) * c)%js = Fin (inject_Z n)
    /\ (0 <= n <= M - 1)%Z.
Proof.
  destruct c as [| |q]; unfold between at 1; try tauto.
  intros [Hq1 Hq2] Hlo HM Hhi.
  apply Math_round_between_Z. unfold fmul.
  assert (H0 : 0 < inject_Z M)
    by (change 0 with (inject_Z 0); rewrite <- Zlt_Qlt; lia).
  apply (rnd64_between 0 (inject_Z (M - 1))).
  - rnd_eval.
  - apply rnd64_Z. lia.
  - split; nra.
Qed.

(** Scaling an integer by a factor above one, then rounding. *)
Lemma scale_above (M B : Z) (c : number) (lo hi : Q) :
  between lo hi c -> (0 < M)%Z -> (B < 2 ^ 53)%Z ->
  inject_Z (M + 1) <= inject_Z M * lo ->
  inject_Z M * hi <= inject_Z B ->
  exists n : Z,
    Math_round (Fin (inject_Z M) * c)%js = Fin (inject_Z n)
    /\ (M + 1 <= n <= B)%Z.
Proof.
  destruct c as [| |q]; unfold between at 1; try tauto.
  intros [Hq1 Hq2] HM HB Hlo Hhi.
  apply Math_round_between_Z. unfold fmul.
  assert (H0 : 0 < inject_Z M)
    by (change 0 with (inject_Z 0); rewrite <- Zlt_Qlt; lia).
  assert (HMB : inject_Z (M + 1) <= inject_Z B) by nra.
  rewrite <- Zle_Qle in HMB.
  apply (rnd64_between (inject_Z (M + 1)) (inject_Z B)).
  - apply rnd64_Z. lia.
  - apply rnd64_Z. lia.
  - split; nra.
Qed.

(** ** Monotonicity in the presence of infinities and NaN *)

Ltac fle_cases :=
  repeat match goal with
         | s : bool |- _ => destruct s
         end;
  try discriminate; try reflexivity;
  auto using fle_NInf_rnd64, fle_rnd64_PInf.

Lemma fmul_mono_l (c : Q) (x y : number) :
  0 < c -> fle x y = true -> fle (Fin c * x)%js (Fin c * y)%js = true.
Proof.
  intros Hc. destruct x as [|s|a], y as [|t|b]; unfold fle at 1, fmul;
    rewrite ?(Qzero_false c Hc), ?(Qneg_false c Hc); intros H; fle_cases.
  apply rnd64_mono. apply Qle_bool_iff in H. nra.
Qed.

Lemma fmul_mono_r (c : Q) (x y : number) :
  0 < c -> fle x y = true -> fle (x * Fin c)%js (y * Fin c)%js = true.
Proof.
  intros Hc. destruct x as [|s|a], y as [|t|b]; unfold fle at 1, fmul;
    rewrite ?(Qzero_false c Hc), ?(Qneg_false c Hc); intros H; fle_cases.
  apply rnd64_mono. apply Qle_bool_iff in H. nra.
Qed.

Lemma fadd_mono_l (x y z : number) :
  fle x y = true ->
  is_nan (x + z)%js = false -> is_nan (y + z)%js = false ->
  fle (x + z)%js (y + z)%js = true.
Proof.
  destruct x as [|s|a], y as [|t|b], z as [|u|c]; unfold fle at 1, fadd;
    intros H; cbn [Bool.eqb is_nan]; intros N1 N2; fle_cases.
  apply rnd64_mono. apply Qle_bool_iff in H. lra.
Qed.

Lemma fsub_mono_l (x y z : number) :
  fle x y = true ->
  is_nan (x - z)%js = false -> is_nan (y - z)%js = false ->
  fle (x - z)%js (y - z)%js = true.
Proof.
  destruct x as [|s|a], y as [|t|b], z as [|u|c]; unfold fle at 1, fsub;
    intros H; cbn [Bool.eqb is_nan negb]; intros N1 N2; fle_cases.
  apply rnd64_mono. apply Qle_bool_iff in H. lra.
Qed.

(** NaN is contagious: a result that is not NaN has no NaN operand. *)
Lemma fadd_nan_l (x z : number) : is_nan (x + z)%js = false -> is_nan x = false.
Proof. destruct x; [discriminate|reflexivity..]. Qed.

Lemma fsub_nan_l (x z : number) : is_nan (x - z)%js = false -> is_nan x = false.
Proof. destruct x; [discriminate|reflexivity..]. Qed.

Lemma fmul_nan_l (x z : number) : is_nan (x * z)%js = false -> is_nan x = false.
Proof. destruct x; [discriminate|reflexivity..]. Qed.

(** ** The literals of the module *)

Lemma lit_0_8_between : between (79 # 100) (81 # 100) lit_0_8.
Proof. unfold between, lit_0_8. lra. Qed.

Lemma lit_1_15_between : between (114 # 100) (116 # 100) lit_1_15.
Proof. unfold between, lit_1_15. lra. Qed.

Lemma lit_0_3_between : between (29 # 100) (31 # 100) lit_0_3.
Proof. unfold between, lit_0_3. lra. Qed.

Lemma lit_0_45_between : between (44 # 100) (46 # 100) lit_0_45.
Proof. unfold between, lit_0_45. lra. Qed.

Lemma multiplier_between (a : ActivityLevel) :
  between 1 2 (ACTIVITY_MULTIPLIERS a).
Proof.
  destruct a; unfold between, ACTIVITY_MULTIPLIERS, lit_1_2, lit_1_375,
    lit_1_55, lit_1_725, lit_1_9; lra.
Qed.

Lemma multiplier_positive (a : ActivityLevel) :
  exists c : Q, ACTIVITY_MULTIPLIERS a = Fin c /\ 0 < c.
Proof.
  destruct a; eexists; (split; [reflexivity|reflexivity]).
Qed.

(** * The calculator *)

(** ** Exact results *)

Ltac push_inject_Z :=
  repeat (rewrite inject_Z_plus || rewrite inject_Z_mult
          || rewrite inject_Z_opp || rewrite inject_Z_pred);
  repeat match goal with
         | |- context [inject_Z (Zpos ?p)] =>
             change (inject_Z (Zpos p)) with (Zpos p # 1)
         | |- context [inject_Z (Zneg ?p)] =>
             change (inject_Z (Zneg p)) with (Zneg p # 1)
         end.

Ltac sixteenth N :=
  match goal with
  | |- context [rnd64 ?q] =>
      rewrite (rnd64_sixteenth q N);
      [|solve [rewrite ?Qred_correct; unfold Z.sub; push_inject_Z; field]
       |lia]
  end.

(** On integer weights and ages and heights that are multiples of a quarter
    of a centimetre, no binary64 rounding occurs either: the basal rate is
    the rational number that the Mifflin-St Jeor equation denotes. *)
Lemma calculateBMR_exact (W H A : Z) (g : Gender) :
  (Z.abs W <= 2 ^ 40)%Z -> (Z.abs H <= 2 ^ 40)%Z -> (Z.abs A <= 2 ^ 40)%Z ->
  calculateBMR (Fin (inject_Z W)) (Fin (inject_Z H / 4)) (Fin (inject_Z A)) g
  = Fin (Qred (10 * inject_Z W + (25 # 4) * (inject_Z H / 4)
               - 5 * inject_Z A
               + match g with male => 5 | female => - (161) end)).
Proof.
  intros HW HH HA.
  unfold calculateBMR, lit_10, lit_6_25, lit_5, lit_161.
  destruct g; unfold fmul.
  - sixteenth (160 * W)%Z. sixteenth (25 * H)%Z. sixteenth (80 * A)%Z.
    unfold fadd at 2. sixteenth (160 * W + 25 * H)%Z.
    unfold fsub. sixteenth (160 * W + 25 * H - 80 * A)%Z.
    unfold fadd. sixteenth (160 * W + 25 * H - 80 * A + 80)%Z.
    apply f_equal, Qred_complete. rewrite !Qred_correct. reflexivity.
  - sixteenth (160 * W)%Z. sixteenth (25 * H)%Z. sixteenth (80 * A)%Z.
    unfold fadd. sixteenth (160 * W + 25 * H)%Z.
    unfold fsub at 2. sixteenth (160 * W + 25 * H - 80 * A)%Z.
    unfold fsub. sixteenth (160 * W + 25 * H - 80 * A - 2576)%Z.
    apply f_equal, Qred_complete. rewrite !Qred_correct. ring.
Qed.

(** The quarter of an integer of the form 4k + 2 is computed exactly. *)
Lemma quarter_tie (k : Z) :
  (Z.abs k < 2 ^ 50)%Z ->
  (Fin (inject_Z (4 * k + 2)) / lit_4)%js = Fin (Qred (inject_Z k + (1 # 2))).
Proof.
  intros Hk. unfold lit_4, fdiv. rewrite Qzero_false by reflexivity.
  rewrite rnd64_representable.
  - apply f_equal. apply Qred_complete.
    rewrite inject_Z_plus, inject_Z_mult.
    change (inject_Z 4) with 4. change (inject_Z 2) with 2. field.
  - apply (representable_intro _ (2 * k + 1) 1073); [lia|lia|].
    unfold ulp64. replace (2 ^ 1074)%Z with (2 * 2 ^ 1073)%Z by reflexivity.
    rewrite (inject_Z_mult (2 * k + 1)), (inject_Z_plus (2 * k) 1),
      (inject_Z_mult 2 k), (inject_Z_plus (4 * k) 2), (inject_Z_mult 4 k),
      (inject_Z_mult 2 (2 ^ 1073)).
    change (inject_Z 4) with 4. change (inject_Z 2) with 2.
    change (inject_Z 1) with 1.
    generalize (inject_Z (2 ^ 1073)) (inject_Z k). intros P K. field.
Qed.

(** ** A user within the validated ranges *)

Section ValidatedUser.

Variable details : UserDetails.
Hypothesis valid : valid_details details = true.

Lemma weight_valid : between 30 300 (weight details).
Proof.
  unfold valid_details in valid. rewrite !andb_true_iff in valid.
  apply in_range_between, valid.
Qed.

(** The basal rate lies between 264 and 4502.5. *)
Lemma bmr_valid : between 264 (9005 # 2) (bmr_of details).
Proof.
  pose proof valid as Hv.
  unfold valid_details in Hv. rewrite !andb_true_iff in Hv.
  destruct Hv as [[Hh Hw] Ha].
  apply in_range_between in Hh, Hw, Ha.
  unfold bmr_of. generalize dependent (age details).
  generalize dependent (weight details).
  generalize dependent (height details). intros h Hh w Hw a Ha.
  assert (H1 : between 300 3000 (lit_10 * w)%js).
  { unfold lit_10.
    refine (fmul_between _ _ _ _ _ _ _ _ (between_point 10) Hw _ _ _ _);
      [lra|lra|rnd_eval|rnd_eval]. }
  assert (H2 : between 625 (3125 # 2) (lit_6_25 * h)%js).
  { unfold lit_6_25.
    refine (fmul_between _ _ _ _ _ _ _ _ (between_point _) Hh _ _ _ _);
      [lra|lra|rnd_eval|rnd_eval]. }
  assert (H3 : between 65 500 (lit_5 * a)%js).
  { unfold lit_5.
    refine (fmul_between _ _ _ _ _ _ _ _ (between_point 5) Ha _ _ _ _);
      [lra|lra|rnd_eval|rnd_eval]. }
  assert (H4 : between 925 (9125 # 2) (lit_10 * w + lit_6_25 * h)%js).
  { refine (fadd_between _ _ _ _ _ _ _ _ H1 H2 _ _); rnd_eval. }
  assert (H5 : between 425 (8995 # 2)
                 (lit_10 * w + lit_6_25 * h - lit_5 * a)%js).
  { refine (fsub_between _ _ _ _ _ _ _ _ H4 H3 _ _); rnd_eval. }
  destruct (gender details); unfold calculateBMR.
  - unfold lit_5 at 2.
    refine (between_weaken _ _ _ _ _
              (fadd_between _ _ _ _ 430 (9005 # 2) _ _ H5 (between_point 5)
                 _ _) _ _); [rnd_eval|rnd_eval|lra|lra].
  - unfold lit_161.
    refine (between_weaken _ _ _ _ _
              (fsub_between _ _ _ _ 264 (8673 # 2) _ _ H5
                 (between_point 161) _ _) _ _); [rnd_eval|rnd_eval|lra|lra].
Qed.

(** The maintenance of a user within the validated ranges is an integer
    between 264 and 9005. *)
Lemma maintenance_valid :
  exists M : Z,
    maintenance_calories (calculateCalories details) = Fin (inject_Z M)
    /\ (264 <= M <= 9005)%Z.
Proof.
  pose proof bmr_valid as Hb.
  unfold calculateCalories. cbn [maintenance_calories]. fold (bmr_of details).
  apply Math_round_between_Z.
  refine (fmul_between _ _ _ _ _ _ _ _ Hb
            (multiplier_between (activity_level details)) _ _ _ _);
    [lra|lra|rnd_eval|rnd_eval].
Qed.

End ValidatedUser.

(** ** Supporting lemmas on both operations *)

(** The maintenance as a function of the weight, the rest being fixed. *)
Lemma maintenance_mono (w1 w2 h a : number) (g : Gender) (l : ActivityLevel) :
  fle w1 w2 = true ->
  let m w := Math_round (calculateBMR w h a g * ACTIVITY_MULTIPLIERS l)%js in
  is_nan (m w1) = false -> is_nan (m w2) = false ->
  fle (m w1) (m w2) = true.
Proof.
  intros Hw m. unfold m. rewrite !Math_round_nan. intros N1 N2.
  apply Math_round_mono.
  destruct (multiplier_positive l) as (c & -> & Hc).
  apply fmul_nan_l in N1, N2. apply fmul_mono_r; [exact Hc|].
  assert (H10 : fle (lit_10 * w1)%js (lit_10 * w2)%js = true)
    by (apply fmul_mono_l; [reflexivity|exact Hw]).
  destruct g; unfold calculateBMR in *.
  - pose proof (fadd_nan_l _ _ N1) as N1a. pose proof (fadd_nan_l _ _ N2) as N2a.
    pose proof (fsub_nan_l _ _ N1a) as N1b.
    pose proof (fsub_nan_l _ _ N2a) as N2b.
    apply fadd_mono_l; trivial. apply fsub_mono_l; trivial.
    apply fadd_mono_l; trivial.
  - pose proof (fsub_nan_l _ _ N1) as N1a. pose proof (fsub_nan_l _ _ N2) as N2a.
    pose proof (fsub_nan_l _ _ N1a) as N1b.
    pose proof (fsub_nan_l _ _ N2a) as N2b.
    apply fsub_mono_l; trivial. apply fsub_mono_l; trivial.
    apply fadd_mono_l; trivial.
Qed.

(** Each macro of [getGoalCalories] is an integer when the target is
    finite. *)
Lemma goal_macro_integer (t c d : number) (lo hi dq : Q) :
  between (- MAX_VALUE) MAX_VALUE t -> between lo hi c -> 0 <= lo ->
  hi <= 1 -> d = Fin dq -> 1 <= dq ->
  is_integer (Math_round (t * c / d)%js) = true.
Proof.
  intros Ht Hc Hlo Hhi -> Hd. apply Math_round_integer.
  assert (HM : 0 <= MAX_VALUE) by (apply Qle_bool_iff; vm_compute; reflexivity).
  pose proof (fmul_bounded _ MAX_VALUE _ _ _ _ Ht Hc Hlo ltac:(nra)
                rnd64_MIN_VALUE rnd64_MAX_VALUE) as H.
  destruct (t * c)%js as [| |p]; unfold between in H; try tauto.
  unfold fdiv. rewrite Qzero_false by lra.
  pose proof (rnd64_between _ _ _ _ (p / dq) rnd64_MIN_VALUE rnd64_MAX_VALUE)
    as Hr.
  destruct (rnd64 (p / dq)); [destruct Hr|destruct Hr|reflexivity].
  all: assert (Hi : 0 < / dq <= 1)
    by (split; [apply Qinv_lt_0_compat; lra
               |apply Qle_shift_inv_r; lra]);
    unfold Qdiv; split; nra.
Qed.

(** ** The claims *)

(** C1, as the specification states it, fails: the basal rate of the worked
    example is not 1805, and none of the figures derived from it is
    returned. *)
Lemma C1_worked_example_refuted :
  ~ (bmr_of example_male = Fin 1805
     /\ calculateCalories example_male =
        {| maintenance_calories := Fin 2798; cut_calories := Fin 2238;
           bulk_calories := Fin 3217; protein_grams := Fin 160;
           carbs_grams := Fin 365; fat_grams := Fin 78 |}).
Proof.
  intros [H _].
  assert (E : bmr_of example_male = Fin 1780) by (vm_compute; reflexivity).
  rewrite E in H. discriminate H.
Qed.

(** C1, amended: for weight 80 kg, height 180 cm, age 30, male and
    moderately active, the basal rate is 10*80 + 6.25*180 - 5*30 + 5 = 1780,
    and [calculateCalories] returns maintenance 2759, cut 2207, bulk 3173,
    protein 160 g, fat 77 g (from 690 fat calories) and carbohydrates 357 g
    (from 1429 carbohydrate calories). *)
Theorem C1_worked_example :
  bmr_of example_male = Fin 1780
  /\ fatCalories_of example_male = Fin 690
  /\ proteinCalories_of example_male = Fin 640
  /\ carbCalories_of example_male = Fin 1429
  /\ calculateCalories example_male =
     {| maintenance_calories := Fin 2759; cut_calories := Fin 2207;
        bulk_calories := Fin 3173; protein_grams := Fin 160;
        carbs_grams := Fin 357; fat_grams := Fin 77 |}.
Proof.
  repeat apply conj; vm_compute; reflexivity.
Qed.

(** C2: [calculateBMR] is the Mifflin-St Jeor expression of the
    specification, + 5 for a male and - 161 for a female, for all numbers
    (NaN and the infinities included, so it never fails); its result is not
    rounded to an integer: the second worked example gives 1345.25. *)
Theorem C2_calculateBMR_formula :
  (forall w h a g, calculateBMR w h a g = spec_BMR w h a g)
  /\ (forall w h a,
        calculateBMR w h a male
        = (lit_10 * w + lit_6_25 * h - lit_5 * a + lit_5)%js)
  /\ (forall w h a,
        calculateBMR w h a female
        = (lit_10 * w + lit_6_25 * h - lit_5 * a - lit_161)%js)
  /\ bmr_of example_female = Fin (5381 # 4)
  /\ is_integer (bmr_of example_female) = false.
Proof.
  split; [intros w h a []; reflexivity|].
  split; [reflexivity|]. split; [reflexivity|].
  split; vm_compute; reflexivity.
Qed.

(** C3: maintenance is [Math.round] of the basal rate times the multiplier
    of the activity level, the table being 1.2, 1.375, 1.55, 1.725 and 1.9;
    cut and bulk are [Math.round] of 0.8 and 1.15 times the maintenance. *)
Theorem C3_maintenance_cut_bulk (details : UserDetails) :
  let r := calculateCalories details in
  let bmr := calculateBMR (weight details) (height details) (age details)
               (gender details) in
  maintenance_calories r
  = Math_round (bmr * ACTIVITY_MULTIPLIERS (activity_level details))%js
  /\ cut_calories r = Math_round (maintenance_calories r * lit_0_8)%js
  /\ bulk_calories r = Math_round (maintenance_calories r * lit_1_15)%js
  /\ ACTIVITY_MULTIPLIERS sedentary = lit 1.2
  /\ ACTIVITY_MULTIPLIERS lightly_active = lit 1.375
  /\ ACTIVITY_MULTIPLIERS moderately_active = lit 1.55
  /\ ACTIVITY_MULTIPLIERS very_active = lit 1.725
  /\ ACTIVITY_MULTIPLIERS extra_active = lit 1.9.
Proof.
  cbv zeta. split; [reflexivity|]. split; [reflexivity|].
  split; [reflexivity|]. repeat apply conj; vm_compute; reflexivity.
Qed.

(** C4: protein is [Math.round] of twice the weight; fat calories are
    [Math.round] of a quarter of the maintenance and fat grams [Math.round]
    of the ninth of that rounded figure; carbohydrate calories are what is
    left of the maintenance, unclamped, and carbohydrate grams [Math.round]
    of their quarter, which is negative for some input. *)
Theorem C4_macro_split :
  (forall details,
      let r := calculateCalories details in
      protein_grams r = Math_round (weight details * lit_2)%js
      /\ fatCalories_of details
         = Math_round (maintenance_calories r * lit_0_25)%js
      /\ fat_grams r = Math_round (fatCalories_of details / lit_9)%js
      /\ carbCalories_of details
         = (maintenance_calories r - protein_grams r * lit_4
            - fatCalories_of details)%js
      /\ carbs_grams r = Math_round (carbCalories_of details / lit_4)%js)
  /\ carbCalories_of example_low = Fin (-3)
  /\ carbs_grams (calculateCalories example_low) = Fin (-1)
  /\ flt (carbs_grams (calculateCalories example_low)) (Fin 0) = true.
Proof.
  split; [intros details; cbv zeta; repeat apply conj; reflexivity|].
  repeat apply conj; vm_compute; reflexivity.
Qed.

(** C5, as the specification states it, fails on its third example: the
    carbohydrates of [getGoalCalories(2500, 'bulk')] are not 324. *)
Lemma C5_bulk_example_refuted :
  getGoalCalories (Fin 2500) bulk
  <> {| calories := Fin 2875; protein := Fin 216; fat := Fin 80;
        carbs := Fin 324 |}.
Proof.
  assert (E : carbs (getGoalCalories (Fin 2500) bulk) = Fin 323)
    by (vm_compute; reflexivity).
  intros H. rewrite H in E. discriminate E.
Qed.

(** C5, amended: the target is the maintenance for maintain, [Math.round]
    of 0.8 times it for cut and of 1.15 times it for bulk; protein, fat and
    carbohydrates are [Math.round] of target * 0.3 / 4, target * 0.25 / 9
    and target * 0.45 / 4; for 2500 the results are 2500, 188, 69, 281 for
    maintain, 2000, 150, 56, 225 for cut and 2875, 216, 80, 323 for bulk
    (2875 * 0.45 / 4 = 323.4375). *)
Theorem C5_getGoalCalories_formula :
  (forall maintenance goalType,
      let r := getGoalCalories maintenance goalType in
      calories r = spec_target maintenance goalType
      /\ protein r = Math_round (calories r * lit_0_3 / lit_4)%js
      /\ fat r = Math_round (calories r * lit_0_25 / lit_9)%js
      /\ carbs r = Math_round (calories r * lit_0_45 / lit_4)%js)
  /\ getGoalCalories (Fin 2500) maintain
     = {| calories := Fin 2500; protein := Fin 188; fat := Fin 69;
          carbs := Fin 281 |}
  /\ getGoalCalories (Fin 2500) cut
     = {| calories := Fin 2000; protein := Fin 150; fat := Fin 56;
          carbs := Fin 225 |}
  /\ getGoalCalories (Fin 2500) bulk
     = {| calories := Fin 2875; protein := Fin 216; fat := Fin 80;
          carbs := Fin 323 |}.
Proof.
  split.
  - intros maintenance []; cbv zeta; repeat apply conj; reflexivity.
  - repeat apply conj; vm_compute; reflexivity.
Qed.




(** C7: for a user within the validated ranges (height 100 to 250, weight
    30 to 300, age 13 to 100), the six fields of [calculateCalories] are
    integers, and when the maintenance is positive,
    cut < maintenance < bulk. *)
Theorem C7_valid_details_ordering (details : UserDetails) :
  valid_details details = true ->
  let r := calculateCalories details in
  (is_integer (maintenance_calories r) = true
   /\ is_integer (cut_calories r) = true
   /\ is_integer (bulk_calories r) = true
   /\ is_integer (protein_grams r) = true
   /\ is_integer (carbs_grams r) = true
   /\ is_integer (fat_grams r) = true)
  /\ (flt (Fin 0) (maintenance_calories r) = true ->
      flt (cut_calories r) (maintenance_calories r) = true
      /\ flt (maintenance_calories r) (bulk_calories r) = true).
Proof.
  intros Hv. destruct (maintenance_valid _ Hv) as (M & EM & HM).
  pose proof (weight_valid _ Hv) as Hw.
  revert EM. unfold calculateCalories.
  cbn [maintenance_calories cut_calories bulk_calories protein_grams
       carbs_grams fat_grams].
  fold (bmr_of details). cbv zeta. intros EM. rewrite !EM.
  pose proof (between_Z 264 9005 M HM : between 264 9005 (Fin (inject_Z M)))
    as HMq.
  (* cut and bulk *)
  destruct (scale_below M lit_0_8 _ _ lit_0_8_between) as (c & Ec & Hc);
    [lra|lia|rewrite inject_Z_pred; unfold between in HMq; lra|].
  destruct (scale_above M 11000 lit_1_15 _ _ lit_1_15_between)
    as (b & Eb & Hb);
    [lia|lia|rewrite inject_Z_succ; unfold between in HMq; lra
    |change (inject_Z 11000) with 11000; unfold between in HMq; lra|].
  rewrite Ec, Eb.
  (* protein *)
  assert (HP : between 60 600 (weight details * lit_2)%js).
  { unfold lit_2.
    refine (fmul_between _ _ _ _ _ _ _ _ Hw (between_point 2) _ _ _ _);
      [lra|lra|rnd_eval|rnd_eval]. }
  destruct (Math_round_between_Z 60 600 _ HP) as (P & EP & HPz).
  rewrite EP.
  (* fat *)
  assert (HF : between 66 (9005 # 4) (Fin (inject_Z M) * lit_0_25)%js).
  { unfold lit_0_25.
    refine (fmul_between 264 9005 _ _ _ _ _ _ HMq (between_point (1 # 4))
              _ _ _ _); [lra|lra|rnd_eval|rnd_eval]. }
  apply (between_weaken _ _ (inject_Z 66) (inject_Z 2252)) in HF;
    [|change (inject_Z 66) with 66; lra|change (inject_Z 2252) with 2252; lra].
  destruct (Math_round_between_Z _ _ _ HF) as (F & EF & HFz).
  rewrite EF.
  pose proof (between_Z 66 2252 F HFz : between 66 2252 (Fin (inject_Z F)))
    as HFq.
  assert (Hfat : is_finite (Fin (inject_Z F) / lit_9)%js = true).
  { unfold lit_9. eapply between_finite.
    refine (fdiv_between 66 2252 9 _ _ _ HFq _ _ _);
      [reflexivity|rnd_eval|rnd_eval]. }
  (* carbohydrates *)
  pose proof (between_Z 60 600 P HPz : between 60 600 (Fin (inject_Z P)))
    as HPq.
  assert (HPC : between 240 2400 (Fin (inject_Z P) * lit_4)%js).
  { unfold lit_4.
    refine (fmul_between 60 600 _ _ _ _ _ _ HPq (between_point 4) _ _ _ _);
      [lra|lra|rnd_eval|rnd_eval]. }
  assert (HC1 : between (-2136) 8765
                  (Fin (inject_Z M) - Fin (inject_Z P) * lit_4)%js).
  { refine (fsub_between 264 9005 _ _ _ _ _ _ HMq HPC _ _); rnd_eval. }
  assert (HC2 : between (-4388) 8699
                  (Fin (inject_Z M) - Fin (inject_Z P) * lit_4
                   - Fin (inject_Z F))%js).
  { refine (fsub_between _ _ 66 2252 _ _ _ _ HC1 HFq _ _); rnd_eval. }
  assert (Hcarb : is_finite
                    ((Fin (inject_Z M) - Fin (inject_Z P) * lit_4
                      - Fin (inject_Z F)) / lit_4)%js = true).
  { unfold lit_4 at 2. eapply between_finite.
    refine (fdiv_between _ _ 4 _ _ _ HC2 _ _ _);
      [reflexivity|rnd_eval|rnd_eval]. }
  split.
  - repeat apply conj;
      solve [ unfold is_integer; rewrite Qred_inject_Z; reflexivity
            | apply Math_round_integer; assumption ].
  - intros _. unfold flt. split; apply negb_true_iff;
      apply not_true_is_false; rewrite Qle_bool_iff, <- Zle_Qle; lia.
Qed.

Lemma C7_valid_details_ordering_witness :
  valid_details example_female = true
  /\ let r := calculateCalories example_female in
     (is_integer (maintenance_calories r) = true
      /\ is_integer (cut_calories r) = true
      /\ is_integer (bulk_calories r) = true
      /\ is_integer (protein_grams r) = true
      /\ is_integer (carbs_grams r) = true
      /\ is_integer (fat_grams r) = true)
     /\ (flt (Fin 0) (maintenance_calories r) = true ->
         flt (cut_calories r) (maintenance_calories r) = true
         /\ flt (maintenance_calories r) (bulk_calories r) = true).
Proof.
  split; [reflexivity|].
  exact (C7_valid_details_ordering example_female eq_refl).
Defined.

(** C8, as the specification states it, fails when the arithmetic
    overflows: with an age of 2^1023, the user of weight 1 gets a
    maintenance of minus infinity and the user of weight 2^1023 gets NaN,
    and minus infinity <= NaN is false. *)
Lemma C8_overflow_counterexample :
  height example_light = height example_heavy
  /\ age example_light = age example_heavy
  /\ gender example_light = gender example_heavy
  /\ activity_level example_light = activity_level example_heavy
  /\ rnd64 (inject_Z (2 ^ 1023)) = Fin (inject_Z (2 ^ 1023))
  /\ fle (weight example_light) (weight example_heavy) = true
  /\ maintenance_calories (calculateCalories example_light) = Inf true
  /\ maintenance_calories (calculateCalories example_heavy) = NaN
  /\ fle (maintenance_calories (calculateCalories example_light))
         (maintenance_calories (calculateCalories example_heavy)) = false.
Proof.
  do 4 (split; [reflexivity|]). repeat apply conj; vm_compute; reflexivity.
Qed.

(** C8, amended: for two users that agree on height, age, gender and
    activity level, the first no heavier than the second, the maintenance of
    the first is at most that of the second provided neither is NaN; this is
    so in particular when both users are within the validated ranges. *)
Theorem C8_maintenance_monotone :
  (forall d1 d2 : UserDetails,
      height d1 = height d2 -> age d1 = age d2 -> gender d1 = gender d2 ->
      activity_level d1 = activity_level d2 ->
      fle (weight d1) (weight d2) = true ->
      is_nan (maintenance_calories (calculateCalories d1)) = false ->
      is_nan (maintenance_calories (calculateCalories d2)) = false ->
      fle (maintenance_calories (calculateCalories d1))
          (maintenance_calories (calculateCalories d2)) = true)
  /\ (forall d1 d2 : UserDetails,
         height d1 = height d2 -> age d1 = age d2 -> gender d1 = gender d2 ->
         activity_level d1 = activity_level d2 ->
         fle (weight d1) (weight d2) = true ->
         valid_details d1 = true -> valid_details d2 = true ->
         fle (maintenance_calories (calculateCalories d1))
             (maintenance_calories (calculateCalories d2)) = true).
Proof.
  assert (H : forall d1 d2 : UserDetails,
             height d1 = height d2 -> age d1 = age d2 ->
             gender d1 = gender d2 ->
             activity_level d1 = activity_level d2 ->
             fle (weight d1) (weight d2) = true ->
             is_nan (maintenance_calories (calculateCalories d1)) = false ->
             is_nan (maintenance_calories (calculateCalories d2)) = false ->
             fle (maintenance_calories (calculateCalories d1))
                 (maintenance_calories (calculateCalories d2)) = true).
  { intros d1 d2 Hh Ha Hg Hl Hw. unfold calculateCalories.
    cbn [maintenance_calories]. rewrite Hh, Ha, Hg, Hl.
    apply (maintenance_mono (weight d1) (weight d2)). exact Hw. }
  split; [exact H|].
  intros d1 d2 Hh Ha Hg Hl Hw V1 V2. apply H; trivial.
  - destruct (maintenance_valid _ V1) as (M & -> & _). reflexivity.
  - destruct (maintenance_valid _ V2) as (M & -> & _). reflexivity.
Qed.

Lemma C8_maintenance_monotone_witness :
  fle (weight example_female) (weight example_female_heavier) = true
  /\ valid_details example_female = true
  /\ valid_details example_female_heavier = true
  /\ fle (maintenance_calories (calculateCalories example_female))
         (maintenance_calories (calculateCalories example_female_heavier))
     = true.
Proof.
  do 3 (split; [reflexivity|]).
  exact (proj2 C8_maintenance_monotone example_female example_female_heavier
           eq_refl eq_refl eq_refl eq_refl eq_refl eq_refl eq_refl).
Defined.

Lemma after_call_store (c : Call) (s : Store) : after_call c s = s.
Proof. destruct c; reflexivity. Qed.

Lemma after_calls_store (history : list Call) (s : Store) :
  after_calls history s = s.
Proof.
  unfold after_calls. revert s.
  induction history as [|c history IH]; intros s; [reflexivity|].
  cbn [fold_left]. rewrite after_call_store. apply IH.
Qed.


(** C10: every rounding of the two functions is [Math.round], which sends
    a half-way value to the integer closer to plus infinity: -1.5 to -1 and
    1.5 to 2.  So when the carbohydrate calories are 4k + 2 the
    carbohydrate grams are k + 1; they are -1 for -6 calories, which the
    user of 31 kg, 100 cm and 101 y reaches. *)
Theorem C10_round_half_up :
  (forall k : Z,
      Math_round (Fin (inject_Z k + (1 # 2))) = Fin (inject_Z (k + 1)))
  /\ Math_round (Fin (- 3 # 2)) = Fin (- 1)
  /\ Math_round (Fin (3 # 2)) = Fin 2
  /\ (forall details,
        carbs_grams (calculateCalories details)
        = Math_round (carbCalories_of details / lit_4)%js)
  /\ (forall maintenance goalType,
        let r := getGoalCalories maintenance goalType in
        protein r = Math_round (calories r * lit_0_3 / lit_4)%js
        /\ fat r = Math_round (calories r * lit_0_25 / lit_9)%js
        /\ carbs r = Math_round (calories r * lit_0_45 / lit_4)%js)
  /\ (forall details (k : Z),
        (Z.abs k < 2 ^ 50)%Z ->
        carbCalories_of details = Fin (inject_Z (4 * k + 2)) ->
        carbs_grams (calculateCalories details) = Fin (inject_Z (k + 1)))
  /\ carbCalories_of example_tie = Fin (- 6)
  /\ carbs_grams (calculateCalories example_tie) = Fin (- 1).
Proof.
  split; [exact Math_round_tie|]. split; [reflexivity|].
  split; [reflexivity|]. split; [reflexivity|].
  split; [intros m g; cbv zeta; repeat apply conj; reflexivity|]. split.
  - intros details k Hk E.
    change (carbs_grams (calculateCalories details))
      with (Math_round (carbCalories_of details / lit_4)%js).
    rewrite E, quarter_tie by exact Hk.
    rewrite <- Math_round_tie. unfold Math_round. do 2 f_equal.
    apply Qfloor_comp. rewrite Qred_correct. reflexivity.
  - split; vm_compute; reflexivity.
Qed.

Lemma C10_round_half_up_witness :
  (Z.abs (- 2) < 2 ^ 50)%Z
  /\ carbCalories_of example_tie = Fin (inject_Z (4 * - 2 + 2))
  /\ carbs_grams (calculateCalories example_tie) = Fin (inject_Z (- 2 + 1)).
Proof.
  assert (E : carbCalories_of example_tie = Fin (inject_Z (4 * - 2 + 2)))
    by (vm_compute; reflexivity).
  split; [reflexivity|]. split; [exact E|].
  exact (proj1 (proj2 (proj2 (proj2 (proj2 (proj2 C10_round_half_up)))))
           example_tie (- 2)%Z eq_refl E).
Defined.


(** * Further properties of the module *)

(** ** The error of one rounding *)

Lemma RNE_half (x : Q) : Qabs (x - inject_Z (RNE x)) <= 1 # 2.
Proof.
  pose proof (RNE_nearest x (Qfloor x)) as H1.
  pose proof (RNE_nearest x (Qfloor x + 1)) as H2.
  pose proof (Qfloor_bounds x) as [Hl Hu].
  rewrite inject_Z_succ in H2. revert H1 H2.
  generalize (Qabs (x - inject_Z (RNE x))). intros d.
  apply Qabs_case; intros ? ?; apply Qabs_case; intros; lra.
Qed.

(** Rounding to 53 significant bits moves a number by at most half a unit
    or by 2^-53 of its magnitude. *)
Lemma round_int_error (x : Q) :
  Qabs (x - inject_Z (round_int x)) <= Qabs x * unit_roundoff + (1 # 2).
Proof.
  pose proof (pow2_lsb_pos x) as HP. pose proof (lsb_nonneg x) as Hk.
  pose proof (RNE_half (significand x)) as H.
  assert (Es : x == significand x * inject_Z (2 ^ lsb x))
    by (unfold significand; field; lra).
  assert (E : x - inject_Z (round_int x)
              == (significand x - inject_Z (RNE (significand x)))
                 * inject_Z (2 ^ lsb x))
    by (rewrite round_int_eq, inject_Z_mult; rewrite Es at 1; ring).
  rewrite E, Qabs_Qmult, (Qabs_pos (inject_Z (2 ^ lsb x))) by lra.
  pose proof (Qabs_nonneg x) as Hx. unfold unit_roundoff.
  destruct (Z.eq_dec (lsb x) 0) as [E0|E0].
  - rewrite E0 in *. change (inject_Z (2 ^ 0)) with 1. lra.
  - pose proof (lsb_lower x ltac:(lia)) as Hl.
    rewrite pow2_split in Hl by lia.
    change (inject_Z (2 ^ 52)) with 4503599627370496 in Hl.
    revert H Hl Hx HP.
    generalize (Qabs (significand x - inject_Z (RNE (significand x)))).
    generalize (inject_Z (2 ^ lsb x)). generalize (Qabs x).
    intros a P d H Hl Hx HP. nra.
Qed.

(** The error of a binary64 rounding with a finite result. *)
Lemma rnd64_error (q r : Q) :
  rnd64 q = Fin r ->
  Qabs (r - q) <= Qabs q * unit_roundoff + / (2 * ulp64).
Proof.
  unfold rnd64. set (n := round_int (q * ulp64)).
  destruct (Z.leb_spec (2 ^ 2098) (Z.abs n)) as [|Hn]; [discriminate|].
  intros [= <-]. pose proof ulp64_pos as HU.
  pose proof (round_int_error (q * ulp64)) as H. fold n in H.
  assert (E : Qred (inject_Z n / ulp64) - q
              == - (q * ulp64 - inject_Z n) * / ulp64)
    by (rewrite Qred_correct; field; lra).
  assert (Hi : 0 < / ulp64) by (apply Qinv_lt_0_compat, HU).
  rewrite E, Qabs_Qmult, Qabs_opp, (Qabs_pos (/ ulp64)) by lra.
  rewrite Qabs_Qmult, (Qabs_pos ulp64) in H by lra.
  assert (E2 : Qabs q * unit_roundoff + / (2 * ulp64)
               == (Qabs q * ulp64 * unit_roundoff + (1 # 2)) * / ulp64)
    by (field; lra).
  rewrite E2. apply Qmult_le_compat_r; [exact H|lra].
Qed.

(** ** Error propagation through the operations *)

Lemma Qabs_bounds (x b : Q) : Qabs x <= b -> - b <= x <= b.
Proof. apply Qabs_Qle_condition. Qed.

Lemma Qabs_le_intro (x b : Q) : - b <= x <= b -> Qabs x <= b.
Proof. apply Qabs_Qle_condition. Qed.

Lemma rnd64_near (B : Z) (d e q p : Q) :
  (0 <= B < 2 ^ 53)%Z ->
  inject_Z B * unit_roundoff + / (2 * ulp64) <= d ->
  Qabs q <= inject_Z B -> Qabs (q - p) <= e ->
  near (e + d) (rnd64 q) p.
Proof.
  intros HB Hd Hq Hp.
  pose proof (rnd64_between (inject_Z (- B)) (inject_Z B) _ _ q
                (rnd64_Z (- B) ltac:(lia)) (rnd64_Z B ltac:(lia))) as Hf.
  apply Qabs_bounds in Hq. rewrite inject_Z_opp in Hf.
  specialize (Hf Hq).
  destruct (rnd64 q) as [| |r] eqn:E; unfold between in Hf; try tauto.
  apply rnd64_error in E. unfold near.
  assert (Hu : 0 <= unit_roundoff) by discriminate.
  assert (Hq' : Qabs q <= inject_Z B) by (apply Qabs_le_intro, Hq).
  assert (Hr : Qabs (r - q) <= d).
  { eapply Qle_trans; [exact E|]. eapply Qle_trans; [|exact Hd].
    apply Qplus_le_l. apply Qmult_le_compat_r; assumption. }
  apply Qabs_bounds in Hr, Hp. apply Qabs_le_intro. lra.
Qed.

Lemma tiny_ok : inject_Z 32768 * unit_roundoff + / (2 * ulp64) <= tiny.
Proof. apply Qle_bool_iff. vm_compute. reflexivity. Qed.

(** The lemmas are stated for any bound [B] on the magnitudes and any
    bound [d] on the error of one rounding below [B]; they are used with
    2^15 and [tiny]. *)
Section Propagation.

Variable B : Z.
Variable d : Q.
Hypothesis B_range : (0 <= B < 2 ^ 53)%Z.
Hypothesis d_ok : inject_Z B * unit_roundoff + / (2 * ulp64) <= d.

Lemma near_Fin (q : Q) : near 0 (Fin q) q.
Proof.
  unfold near. apply Qabs_le_intro. lra.
Qed.

Lemma near_weaken (e e' : Q) (x : number) (p : Q) :
  near e x p -> e <= e' -> near e' x p.
Proof. destruct x; unfold near; trivial. intros. lra. Qed.

Lemma near_between (e : Q) (x : number) (p : Q) :
  near e x p -> between (p - e) (p + e) x.
Proof.
  destruct x as [| |r]; unfold near, between; trivial.
  intros H. apply Qabs_bounds in H. lra.
Qed.

Lemma fadd_near (e1 e2 p q : Q) (x y : number) :
  near e1 x p -> near e2 y q ->
  Qabs p + Qabs q + e1 + e2 <= inject_Z B ->
  near (e1 + e2 + d) (x + y)%js (p + q).
Proof.
  destruct x as [| |a], y as [| |b]; unfold near at 1 2; try tauto.
  intros Ha Hb Hm. unfold fadd.
  apply Qabs_bounds in Ha, Hb.
  apply (rnd64_near B); trivial; apply Qabs_le_intro; revert Hm;
    apply (Qabs_case p); intros ?; apply (Qabs_case q); intros; lra.
Qed.

Lemma fsub_near (e1 e2 p q : Q) (x y : number) :
  near e1 x p -> near e2 y q ->
  Qabs p + Qabs q + e1 + e2 <= inject_Z B ->
  near (e1 + e2 + d) (x - y)%js (p - q).
Proof.
  destruct x as [| |a], y as [| |b]; unfold near at 1 2; try tauto.
  intros Ha Hb Hm. unfold fsub.
  apply Qabs_bounds in Ha, Hb.
  apply (rnd64_near B); trivial; apply Qabs_le_intro; revert Hm;
    apply (Qabs_case p); intros ?; apply (Qabs_case q); intros; lra.
Qed.

(** Multiplication by a non-negative constant, on either side. *)
Lemma fmul_near_r (e p c : Q) (x : number) :
  near e x p -> 0 <= c -> c * (Qabs p + e) <= inject_Z B ->
  near (c * e + d) (x * Fin c)%js (p * c).
Proof.
  destruct x as [| |a]; unfold near at 1; try tauto.
  intros Ha Hc Hm. unfold fmul.
  apply Qabs_bounds in Ha.
  apply (rnd64_near B); trivial; apply Qabs_le_intro; revert Hm;
    apply (Qabs_case p); intros; nra.
Qed.

Lemma fmul_near_l (e p c : Q) (x : number) :
  near e x p -> 0 <= c -> c * (Qabs p + e) <= inject_Z B ->
  near (c * e + d) (Fin c * x)%js (c * p).
Proof.
  destruct x as [| |a]; unfold near at 1; try tauto.
  intros Ha Hc Hm. unfold fmul.
  apply Qabs_bounds in Ha.
  apply (rnd64_near B); trivial; apply Qabs_le_intro; revert Hm;
    apply (Qabs_case p); intros; nra.
Qed.

(** Division by a constant that is at least one. *)
Lemma fdiv_near (e p c : Q) (x : number) :
  near e x p -> 1 <= c -> Qabs p + e <= inject_Z B ->
  near (e + d) (x / Fin c)%js (p / c).
Proof.
  destruct x as [| |a]; unfold near at 1; try tauto.
  intros Ha Hc Hm. unfold fdiv. rewrite Qzero_false by lra.
  apply Qabs_bounds in Ha.
  assert (Hi : 0 < / c <= 1)
    by (split; [apply Qinv_lt_0_compat; lra|apply Qle_shift_inv_r; lra]).
  unfold Qdiv.
  apply (rnd64_near B); trivial; apply Qabs_le_intro; revert Hm;
    apply (Qabs_case p); intros; nra.
Qed.

End Propagation.

(** [Math.round] of a number near [p] is an integer within a half and the
    error of [p]. *)
Lemma Math_round_near (e p : Q) (x : number) :
  near e x p ->
  exists n : Z,
    Math_round x = Fin (inject_Z n)
    /\ p - e - (1 # 2) < inject_Z n <= p + e + (1 # 2).
Proof.
  destruct x as [| |r]; unfold near; try tauto.
  intros H. apply Qabs_bounds in H.
  exists (Qfloor (r + (1 # 2))). split; [reflexivity|].
  pose proof (Qfloor_bounds (r + (1 # 2))). lra.
Qed.

(** ** Accuracy for a user within the validated ranges *)

Ltac abs_lra :=
  repeat match goal with
         | |- context [inject_Z (Zpos ?p)] =>
             change (inject_Z (Zpos p)) with (Zpos p # 1)
         end;
  repeat match goal with
         | |- context [Qabs ?x] => apply (Qabs_case x); intros
         end;
  lra.

Lemma valid_details_inv (details : UserDetails) :
  valid_details details = true ->
  exists w h a : Q,
    weight details = Fin w /\ height details = Fin h /\ age details = Fin a
    /\ 30 <= w <= 300 /\ 100 <= h <= 250 /\ 13 <= a <= 100.
Proof.
  unfold valid_details. rewrite !andb_true_iff. intros [[Hh Hw] Ha].
  apply in_range_between in Hh, Hw, Ha.
  destruct (weight details) as [| |w], (height details) as [| |h],
    (age details) as [| |a]; unfold between in *; try tauto.
  exists w, h, a. repeat split; tauto.
Qed.

Lemma tiny_range : (0 <= 32768 < 2 ^ 53)%Z.
Proof. split; [discriminate|reflexivity]. Qed.

(** The basal rate is within 1e-10 of the exact value of the equation. *)
Lemma bmr_near (details : UserDetails) :
  valid_details details = true ->
  near (1 # 10000000000) (bmr_of details)
    (exact_BMR (value (weight details)) (value (height details))
       (value (age details)) (gender details)).
Proof.
  intros Hv.
  destruct (valid_details_inv _ Hv) as (w & h & a & Ew & Eh & Ea & Hw & Hh & Ha).
  unfold bmr_of. rewrite Ew, Eh, Ea. cbn [value].
  pose proof (fmul_near_l 32768 tiny tiny_range tiny_ok 0 w 10 (Fin w)
                (near_Fin w) ltac:(lra) ltac:(abs_lra)) as H1.
  pose proof (fmul_near_l 32768 tiny tiny_range tiny_ok 0 h (25 # 4) (Fin h)
                (near_Fin h) ltac:(lra) ltac:(abs_lra)) as H2.
  pose proof (fmul_near_l 32768 tiny tiny_range tiny_ok 0 a 5 (Fin a)
                (near_Fin a) ltac:(lra) ltac:(abs_lra)) as H3.
  pose proof (fadd_near 32768 tiny tiny_range tiny_ok _ _ _ _ _ _ H1 H2
                ltac:(unfold tiny; abs_lra)) as H4.
  pose proof (fsub_near 32768 tiny tiny_range tiny_ok _ _ _ _ _ _ H4 H3
                ltac:(unfold tiny; abs_lra)) as H5.
  unfold calculateBMR, exact_BMR, lit_10, lit_6_25, lit_5, lit_161.
  destruct (gender details).
  - pose proof (fadd_near 32768 tiny tiny_range tiny_ok _ _ _ _ _ _ H5
                  (near_Fin 5) ltac:(unfold tiny; abs_lra)) as H6.
    eapply near_weaken; [exact H6|]. unfold tiny. lra.
  - pose proof (fsub_near 32768 tiny tiny_range tiny_ok _ _ _ _ _ _ H5
                  (near_Fin 161) ltac:(unfold tiny; abs_lra)) as H6.
    eapply near_weaken; [exact H6|]. unfold tiny. lra.
Qed.

Lemma near_shift (e e' p p' : Q) (x : number) :
  near e x p -> Qabs (p - p') <= e' -> near (e + e') x p'.
Proof.
  destruct x as [| |r]; unfold near; trivial.
  intros H H'. apply Qabs_bounds in H, H'. apply Qabs_le_intro. lra.
Qed.

Lemma multiplier_value (l : ActivityLevel) :
  exists c : Q,
    ACTIVITY_MULTIPLIERS l = Fin c /\ 1 <= c <= 2
    /\ Qabs (c - exact_multiplier l) <= 1 # 1000000000000000.
Proof.
  destruct l; eexists; (split; [reflexivity|]);
    (split; [lra|apply Qabs_le_intro; unfold exact_multiplier; lra]).
Qed.

Lemma exact_BMR_range (w h a : Q) (g : Gender) :
  30 <= w <= 300 -> 100 <= h <= 250 -> 13 <= a <= 100 ->
  264 <= exact_BMR w h a g <= 9005 # 2.
Proof. intros. unfold exact_BMR. destruct g; lra. Qed.

(** Before [Math.round], the maintenance is within 1e-9 of the exact
    product of the equation and the decimal multiplier. *)
Lemma maintenance_product_near (details : UserDetails) :
  valid_details details = true ->
  near (1 # 1000000000)
    (bmr_of details * ACTIVITY_MULTIPLIERS (activity_level details))%js
    (exact_maintenance details).
Proof.
  intros Hv. pose proof (bmr_near _ Hv) as Hb.
  destruct (valid_details_inv _ Hv) as (w & h & a & Ew & Eh & Ea & Hw & Hh & Ha).
  unfold exact_maintenance. rewrite Ew, Eh, Ea in *. cbn [value] in *.
  pose proof (exact_BMR_range w h a (gender details) Hw Hh Ha) as HE.
  destruct (multiplier_value (activity_level details)) as (c & -> & Hc & Hm).
  set (E := exact_BMR w h a (gender details)) in *.
  assert (Hcond : c * (Qabs E + (1 # 10000000000)) <= inject_Z 32768).
  { change (inject_Z 32768) with 32768. rewrite (Qabs_pos E) by lra. nra. }
  pose proof (fmul_near_r 32768 tiny tiny_range tiny_ok _ _ c _ Hb
                ltac:(lra) Hcond) as H1.
  eapply near_weaken.
  - apply (near_shift _ (1 # 100000000000) _ _ _ H1).
    apply Qabs_bounds in Hm. apply Qabs_le_intro.
    generalize dependent (exact_multiplier (activity_level details)).
    intros m Hm. split; nra.
  - unfold tiny. lra.
Qed.

(** The maintenance is the integer nearest to the exact figure, up to
    1e-9 at a tie. *)
Lemma maintenance_near (details : UserDetails) :
  valid_details details = true ->
  exists M : Z,
    maintenance_calories (calculateCalories details) = Fin (inject_Z M)
    /\ exact_maintenance details - (1 # 2) - (1 # 1000000000) < inject_Z M
       <= exact_maintenance details + (1 # 2) + (1 # 1000000000).
Proof.
  intros Hv.
  destruct (Math_round_near _ _ _ (maintenance_product_near _ Hv))
    as (M & E & HM).
  exists M. split; [exact E|]. lra.
Qed.

(** A number near [p] times a literal near the decimal [m], then
    [Math.round]: the integer nearest to [p * m], up to 1e-9 at a tie. *)
Lemma round_scaled_near (x : number) (p e c m : Q) :
  near e x p -> 0 <= c <= 2 -> Qabs p <= 16000 ->
  0 <= e <= 1 # 10000000000 ->
  Qabs (c - m) <= 1 # 1000000000000000 ->
  exists n : Z,
    Math_round (x * Fin c)%js = Fin (inject_Z n)
    /\ p * m - (1 # 2) - (1 # 1000000000) < inject_Z n
       <= p * m + (1 # 2) + (1 # 1000000000).
Proof.
  intros Hx Hc Hp He Hm.
  assert (Hcond : c * (Qabs p + e) <= inject_Z 32768).
  { change (inject_Z 32768) with 32768. pose proof (Qabs_nonneg p). nra. }
  pose proof (fmul_near_r 32768 tiny tiny_range tiny_ok _ _ c _ Hx
                ltac:(lra) Hcond) as H1.
  assert (H2 : near (1 # 2000000000) (x * Fin c)%js (p * m)).
  { eapply near_weaken.
    - apply (near_shift _ (1 # 10000000000) _ _ _ H1).
      apply Qabs_bounds in Hm, Hp. apply Qabs_le_intro. split; nra.
    - unfold tiny. nra. }
  destruct (Math_round_near _ _ _ H2) as (n & E & Hn).
  exists n. split; [exact E|]. lra.
Qed.

(** A number near [p] divided by an integer literal [c], then
    [Math.round]; [m] is the inverse of [c]. *)
Lemma round_divided_near (x : number) (p e c m : Q) :
  near e x p -> 1 <= c -> / c == m -> Qabs p <= 32000 ->
  0 <= e <= 1 # 10000000000 ->
  exists n : Z,
    Math_round (x / Fin c)%js = Fin (inject_Z n)
    /\ p * m - (1 # 2) - (1 # 1000000000) < inject_Z n
       <= p * m + (1 # 2) + (1 # 1000000000).
Proof.
  intros Hx Hc Em Hp He.
  assert (Hcond : Qabs p + e <= inject_Z 32768)
    by (change (inject_Z 32768) with 32768; lra).
  pose proof (fdiv_near 32768 tiny tiny_range tiny_ok _ _ c _ Hx Hc Hcond)
    as H1.
  destruct (Math_round_near _ _ _ H1) as (n & E & Hn).
  exists n. split; [exact E|]. unfold tiny, Qdiv in Hn. rewrite Em in Hn. lra.
Qed.

Lemma near_Z (n : Z) : near 0 (Fin (inject_Z n)) (inject_Z n).
Proof. apply near_Fin. Qed.

Lemma lit_0_8_close : Qabs (value lit_0_8 - (8 # 10)) <= 1 # 1000000000000000.
Proof. apply Qabs_le_intro. cbn. lra. Qed.

Lemma lit_1_15_close :
  Qabs (value lit_1_15 - (115 # 100)) <= 1 # 1000000000000000.
Proof. apply Qabs_le_intro. cbn. lra. Qed.

Lemma lit_0_3_close : Qabs (value lit_0_3 - (3 # 10)) <= 1 # 1000000000000000.
Proof. apply Qabs_le_intro. cbn. lra. Qed.

Lemma lit_0_45_close :
  Qabs (value lit_0_45 - (45 # 100)) <= 1 # 1000000000000000.
Proof. apply Qabs_le_intro. cbn. lra. Qed.

Lemma exact_maintenance_range (details : UserDetails) :
  valid_details details = true ->
  (3168 # 10) <= exact_maintenance details <= (855475 # 100).
Proof.
  intros Hv.
  destruct (valid_details_inv _ Hv) as (w & h & a & Ew & Eh & Ea & Hw & Hh & Ha).
  unfold exact_maintenance. rewrite Ew, Eh, Ea. cbn [value].
  pose proof (exact_BMR_range w h a (gender details) Hw Hh Ha) as HE.
  generalize dependent (exact_BMR w h a (gender details)). intros E HE.
  destruct (activity_level details); unfold exact_multiplier; lra.
Qed.

Lemma Z_of_Q_bounds (lo hi n : Z) (q : Q) :
  inject_Z lo - 1 < q -> q < inject_Z hi + 1 -> q == inject_Z n ->
  (lo <= n <= hi)%Z.
Proof.
  intros H1 H2 E. rewrite E in H1, H2.
  rewrite <- inject_Z_pred in H1. rewrite <- inject_Z_succ in H2.
  rewrite <- Zlt_Qlt in H1, H2. lia.
Qed.

(** Every field of [calculateCalories] is, for a user within the validated
    ranges, the integer nearest to the exact value of its formula. *)
Lemma calculateCalories_near (details : UserDetails) :
  valid_details details = true ->
  exists M CUT BULK P FC F C : Z,
    calculateCalories details
    = {| maintenance_calories := Fin (inject_Z M);
         cut_calories := Fin (inject_Z CUT);
         bulk_calories := Fin (inject_Z BULK);
         protein_grams := Fin (inject_Z P);
         carbs_grams := Fin (inject_Z C);
         fat_grams := Fin (inject_Z F) |}
    /\ fatCalories_of details = Fin (inject_Z FC)
    /\ rounds_to (exact_maintenance details) M
    /\ rounds_to (inject_Z M * (8 # 10)) CUT
    /\ rounds_to (inject_Z M * (115 # 100)) BULK
    /\ rounds_to (value (weight details) * 2) P
    /\ rounds_to (inject_Z M * (1 # 4)) FC
    /\ rounds_to (inject_Z FC * (1 # 9)) F
    /\ rounds_to ((inject_Z M - inject_Z P * 4 - inject_Z FC) * (1 # 4)) C.
Proof.
  intros Hv. destruct (maintenance_near _ Hv) as (M & EM & HM).
  pose proof (exact_maintenance_range _ Hv) as HR.
  destruct (valid_details_inv _ Hv) as (w & h & a & Ew & _ & _ & Hw & _ & _).
  assert (HMq : 316 <= inject_Z M <= 8556) by lra.
  assert (He0 : 0 <= 0 <= 1 # 10000000000) by lra.
  destruct (round_scaled_near _ _ 0 (value lit_0_8) (8 # 10) (near_Z M)
              ltac:(cbn; lra) ltac:(abs_lra) He0 lit_0_8_close)
    as (CUT & ECUT & HCUT).
  destruct (round_scaled_near _ _ 0 (value lit_1_15) (115 # 100) (near_Z M)
              ltac:(cbn; lra) ltac:(abs_lra) He0 lit_1_15_close)
    as (BULK & EBULK & HBULK).
  destruct (round_scaled_near _ _ 0 2 2 (near_Fin w)
              ltac:(lra) ltac:(abs_lra) He0 ltac:(abs_lra))
    as (P & EP & HP).
  destruct (round_scaled_near _ _ 0 (1 # 4) (1 # 4) (near_Z M)
              ltac:(lra) ltac:(abs_lra) He0 ltac:(abs_lra))
    as (FC & EFC & HFC).
  assert (HFCq : 78 <= inject_Z FC <= 2140) by lra.
  destruct (round_divided_near _ _ 0 9 (1 # 9) (near_Z FC)
              ltac:(lra) ltac:(reflexivity) ltac:(abs_lra) He0)
    as (F & EF & HF).
  assert (HPq : 59 <= inject_Z P <= 601) by lra.
  pose proof (fmul_near_r 32768 tiny tiny_range tiny_ok _ _ 4 _ (near_Z P)
                ltac:(lra) ltac:(abs_lra)) as H1.
  pose proof (fsub_near 32768 tiny tiny_range tiny_ok _ _ _ _ _ _ (near_Z M) H1
                ltac:(unfold tiny; abs_lra)) as H2.
  pose proof (fsub_near 32768 tiny tiny_range tiny_ok _ _ _ _ _ _ H2 (near_Z FC)
                ltac:(unfold tiny; abs_lra)) as H3.
  destruct (round_divided_near _ _ _ 4 (1 # 4) H3
              ltac:(lra) ltac:(reflexivity) ltac:(abs_lra)
              ltac:(unfold tiny; lra))
    as (C & EC & HC).
  exists M, CUT, BULK, P, FC, F, C.
  assert (EFC' : fatCalories_of details = Fin (inject_Z FC)).
  { unfold fatCalories_of. rewrite EM. exact EFC. }
  split;
    [|unfold rounds_to; rewrite Ew; cbn [value]; repeat apply conj;
      first [assumption|lra]].
  revert EM. unfold calculateCalories.
  cbn [maintenance_calories]. cbv zeta. intros EM. rewrite !EM, Ew.
  unfold lit_0_8, lit_1_15, lit_2, lit_0_25, lit_9, lit_4 in *.
  cbn [value] in ECUT, EBULK.
  rewrite ECUT, EBULK, EP, EFC, EF, EC. reflexivity.
Qed.

(** From an inequality between integers seen as rationals back to [Z]. *)
Lemma inject_Z_sub (x y : Z) : inject_Z (x - y) == inject_Z x - inject_Z y.
Proof.
  unfold Z.sub. rewrite inject_Z_plus, inject_Z_opp. reflexivity.
Qed.

Ltac to_Z :=
  first [rewrite Zlt_Qlt|rewrite Zle_Qle];
  repeat rewrite inject_Z_sub; push_inject_Z.

Ltac Z_bound H :=
  assert H by (repeat apply conj; to_Z; unfold rounds_to in *; lra).

Lemma Q_of_Z_bounds (a b n : Z) :
  (a <= n <= b)%Z -> inject_Z a <= inject_Z n <= inject_Z b.
Proof. rewrite <- !Zle_Qle. trivial. Qed.

Ltac Q_bound a b n :=
  assert (Zpos a # 1 <= inject_Z n <= Zpos b # 1)
    by (apply (Q_of_Z_bounds (Zpos a) (Zpos b) n); lia).

(** ** Accuracy, ranges and balance of [calculateCalories] *)

(** X1: for a user within the validated ranges the basal rate of
    [calculateBMR] lies between 264 and 4502.5, so it is positive, and it is
    within 1e-10 of the exact value of the Mifflin-St Jeor equation; the
    users at the two ends of the ranges reach the two bounds. *)
Theorem calculateBMR_validated :
  (forall details : UserDetails,
      valid_details details = true ->
      let bmr := calculateBMR (weight details) (height details) (age details)
                   (gender details) in
      between 264 (9005 # 2) bmr
      /\ Qabs (value bmr
               - exact_BMR (value (weight details)) (value (height details))
                   (value (age details)) (gender details))
         <= 1 # 10000000000)
  /\ calculateBMR (weight example_min) (height example_min) (age example_min)
       (gender example_min) = Fin 264
  /\ calculateBMR (weight example_max) (height example_max) (age example_max)
       (gender example_max) = Fin (9005 # 2).
Proof.
  split; [|split; vm_compute; reflexivity].
  intros details Hv. cbv zeta.
  pose proof (bmr_valid details Hv) as HB.
  pose proof (bmr_near details Hv) as HN.
  unfold bmr_of in HB, HN. split; [exact HB|].
  destruct (calculateBMR _ _ _ _) as [| |b]; [destruct HB..|].
  exact HN.
Qed.

Lemma calculateBMR_validated_witness :
  let bmr := calculateBMR (weight example_male) (height example_male)
               (age example_male) (gender example_male) in
  between 264 (9005 # 2) bmr
  /\ Qabs (value bmr
           - exact_BMR (value (weight example_male))
               (value (height example_male)) (value (age example_male))
               (gender example_male))
     <= 1 # 10000000000.
Proof.
  exact (proj1 calculateBMR_validated example_male eq_refl).
Defined.

(** X2: for a user within the validated ranges, the maintenance is the exact
    value of the Mifflin-St Jeor equation times the decimal multiplier,
    rounded to the nearest integer, and every other field is the nearest
    integer to the exact value of its formula: the binary64 arithmetic
    changes nothing but, at most, the side a tie within 1e-9 falls on. *)
Theorem calculateCalories_accuracy (details : UserDetails) :
  valid_details details = true ->
  exists M CUT BULK P FC F C : Z,
    calculateCalories details
    = {| maintenance_calories := Fin (inject_Z M);
         cut_calories := Fin (inject_Z CUT);
         bulk_calories := Fin (inject_Z BULK);
         protein_grams := Fin (inject_Z P);
         carbs_grams := Fin (inject_Z C);
         fat_grams := Fin (inject_Z F) |}
    /\ rounds_to (exact_maintenance details) M
    /\ rounds_to (inject_Z M * (8 # 10)) CUT
    /\ rounds_to (inject_Z M * (115 # 100)) BULK
    /\ rounds_to (value (weight details) * 2) P
    /\ rounds_to (inject_Z M * (1 # 4)) FC
    /\ rounds_to (inject_Z FC * (1 # 9)) F
    /\ rounds_to (inject_Z (M - 4 * P - FC) * (1 # 4)) C.
Proof.
  intros Hv.
  destruct (calculateCalories_near _ Hv)
    as (M & CUT & BULK & P & FC & F & C & E & _ & HM & HCUT & HBULK & HP
        & HFC & HF & HC).
  exists M, CUT, BULK, P, FC, F, C. split; [exact E|].
  do 6 (split; [assumption|]).
  unfold rounds_to in *. unfold Z.sub. push_inject_Z. lra.
Qed.

Lemma calculateCalories_accuracy_witness :
  valid_details example_female = true
  /\ exists M CUT BULK P FC F C : Z,
       calculateCalories example_female
       = {| maintenance_calories := Fin (inject_Z M);
            cut_calories := Fin (inject_Z CUT);
            bulk_calories := Fin (inject_Z BULK);
            protein_grams := Fin (inject_Z P);
            carbs_grams := Fin (inject_Z C);
            fat_grams := Fin (inject_Z F) |}
       /\ rounds_to (exact_maintenance example_female) M
       /\ rounds_to (inject_Z M * (8 # 10)) CUT
       /\ rounds_to (inject_Z M * (115 # 100)) BULK
       /\ rounds_to (value (weight example_female) * 2) P
       /\ rounds_to (inject_Z M * (1 # 4)) FC
       /\ rounds_to (inject_Z FC * (1 # 9)) F
       /\ rounds_to (inject_Z (M - 4 * P - FC) * (1 # 4)) C.
Proof.
  split; [reflexivity|].
  exact (calculateCalories_accuracy example_female eq_refl).
Defined.

Lemma exact_maintenance_weight (details : UserDetails) :
  valid_details details = true ->
  12 * value (weight details) - (432 # 10) <= exact_maintenance details
  <= 19 * value (weight details) + (285475 # 100).
Proof.
  intros Hv.
  destruct (valid_details_inv _ Hv) as (w & h & a & Ew & Eh & Ea & Hw & Hh & Ha).
  unfold exact_maintenance, exact_BMR. rewrite Ew, Eh, Ea. cbn [value].
  destruct (gender details), (activity_level details);
    unfold exact_multiplier; lra.
Qed.

(** X3: for a user within the validated ranges the maintenance lies between
    317 and 8555, the cut between 254 and 6844, the bulk between 365 and
    9838, the protein between 60 and 600 and the fat between 9 and 238; the
    users at the two ends of the ranges reach every one of these bounds. *)
Theorem calculateCalories_ranges :
  (forall details : UserDetails,
      valid_details details = true ->
      let r := calculateCalories details in
      between 317 8555 (maintenance_calories r)
      /\ between 254 6844 (cut_calories r)
      /\ between 365 9838 (bulk_calories r)
      /\ between 60 600 (protein_grams r)
      /\ between 9 238 (fat_grams r))
  /\ valid_details example_min = true
  /\ calculateCalories example_min
     = {| maintenance_calories := Fin 317; cut_calories := Fin 254;
          bulk_calories := Fin 365; protein_grams := Fin 60;
          carbs_grams := Fin 0; fat_grams := Fin 9 |}
  /\ valid_details example_max = true
  /\ calculateCalories example_max
     = {| maintenance_calories := Fin 8555; cut_calories := Fin 6844;
          bulk_calories := Fin 9838; protein_grams := Fin 600;
          carbs_grams := Fin 1004; fat_grams := Fin 238 |}.
Proof.
  split; [|repeat apply conj; vm_compute; reflexivity].
  intros details Hv.
  destruct (calculateCalories_near _ Hv)
    as (M & CUT & BULK & P & FC & F & C & E & _ & HM & HCUT & HBULK & HP
        & HFC & HF & HC).
  pose proof (exact_maintenance_range _ Hv) as HR.
  destruct (valid_details_inv _ Hv) as (w & h & a & Ew & _ & _ & Hw & _ & _).
  rewrite Ew in HP. cbn [value] in HP.
  cbv zeta. rewrite E.
  cbn [maintenance_calories cut_calories bulk_calories protein_grams
       fat_grams].
  Z_bound (316 < M < 8556)%Z.
  Q_bound 317%positive 8555%positive M.
  Z_bound (253 < CUT < 6845)%Z. Z_bound (364 < BULK < 9839)%Z.
  Z_bound (59 < P < 601)%Z. Z_bound (78 < FC < 2140)%Z.
  Q_bound 79%positive 2139%positive FC.
  Z_bound (8 < F < 239)%Z.
  split; [apply (between_Z 317 8555 M); lia|].
  split; [apply (between_Z 254 6844 CUT); lia|].
  split; [apply (between_Z 365 9838 BULK); lia|].
  split; [apply (between_Z 60 600 P); lia|].
  apply (between_Z 9 238 F); lia.
Qed.

Lemma calculateCalories_ranges_witness :
  let r := calculateCalories example_male in
  between 317 8555 (maintenance_calories r)
  /\ between 254 6844 (cut_calories r)
  /\ between 365 9838 (bulk_calories r)
  /\ between 60 600 (protein_grams r)
  /\ between 9 238 (fat_grams r).
Proof.
  exact (proj1 calculateCalories_ranges example_male eq_refl).
Defined.

(** X4: for a user within the validated ranges the carbohydrates lie between
    -1 and 1005 grams, and they are not negative when the weight is at least
    34 kg; the validated user of 30.25 kg, 100 cm and 100 y gets -1 gram. *)
Theorem calculateCalories_carbs :
  (forall details : UserDetails,
      valid_details details = true ->
      between (-1) 1005 (carbs_grams (calculateCalories details))
      /\ (fle (Fin 34) (weight details) = true ->
          between 0 1005 (carbs_grams (calculateCalories details))))
  /\ valid_details example_thin = true
  /\ carbs_grams (calculateCalories example_thin) = Fin (-1).
Proof.
  split; [|split; vm_compute; reflexivity].
  intros details Hv.
  destruct (calculateCalories_near _ Hv)
    as (M & CUT & BULK & P & FC & F & C & E & _ & HM & _ & _ & HP
        & HFC & _ & HC).
  pose proof (exact_maintenance_weight _ Hv) as HR.
  destruct (valid_details_inv _ Hv) as (w & h & a & Ew & _ & _ & Hw & _ & _).
  rewrite Ew in HP, HR |- *. cbn [value] in HP, HR.
  rewrite E. cbn [carbs_grams].
  Z_bound (-2 < C < 1006)%Z.
  split; [apply (between_Z (-1) 1005 C); lia|].
  intros H34. cbn [fle] in H34. apply Qle_bool_iff in H34.
  Z_bound (-1 < C)%Z.
  apply (between_Z 0 1005 C); lia.
Qed.

Lemma calculateCalories_carbs_witness :
  between (-1) 1005 (carbs_grams (calculateCalories example_male))
  /\ (fle (Fin 34) (weight example_male) = true ->
      between 0 1005 (carbs_grams (calculateCalories example_male))).
Proof.
  exact (proj1 calculateCalories_carbs example_male eq_refl).
Defined.

(** X5: for a user within the validated ranges the calories of the three
    macronutrients (4 per gram of protein and of carbohydrate, 9 per gram of
    fat) add up to the maintenance calories within 6. *)
Theorem calculateCalories_balance (details : UserDetails) :
  valid_details details = true ->
  let r := calculateCalories details in
  Qabs (4 * value (protein_grams r) + 9 * value (fat_grams r)
        + 4 * value (carbs_grams r) - value (maintenance_calories r)) <= 6.
Proof.
  intros Hv.
  destruct (calculateCalories_near _ Hv)
    as (M & CUT & BULK & P & FC & F & C & E & _ & _ & _ & _ & _
        & _ & HF & HC).
  cbv zeta. rewrite E.
  cbn [maintenance_calories protein_grams carbs_grams fat_grams value].
  Z_bound (-5 < 9 * F - FC < 5)%Z.
  Z_bound (-3 < 4 * C - (M - 4 * P - FC) < 3)%Z.
  assert (HZ : (-6 <= 4 * P + 9 * F + 4 * C - M <= 6)%Z) by lia.
  apply Q_of_Z_bounds in HZ.
  rewrite !inject_Z_sub, !inject_Z_plus, !inject_Z_mult in HZ.
  change (inject_Z 4) with 4 in HZ. change (inject_Z 9) with 9 in HZ.
  change (inject_Z 6) with 6 in HZ. change (inject_Z (-6)) with (-6 # 1) in HZ.
  apply Qabs_le_intro. lra.
Qed.

Lemma calculateCalories_balance_witness :
  valid_details example_male = true
  /\ (let r := calculateCalories example_male in
      Qabs (4 * value (protein_grams r) + 9 * value (fat_grams r)
            + 4 * value (carbs_grams r) - value (maintenance_calories r))
      <= 6).
Proof.
  split; [reflexivity|].
  exact (calculateCalories_balance example_male eq_refl).
Defined.

(** X6: of two users within the validated ranges that differ in gender only,
    the man gets more maintenance calories than the woman, by the integer
    part of 166 times the activity multiplier or by one more: 199 or 200
    when sedentary, up to 315 or 316 when extra active. *)
Theorem calculateCalories_gender_gap (details : UserDetails) :
  valid_details details = true ->
  exists Mm Mf : Z,
    maintenance_calories (calculateCalories (with_gender male details))
    = Fin (inject_Z Mm)
    /\ maintenance_calories (calculateCalories (with_gender female details))
       = Fin (inject_Z Mf)
    /\ (Qfloor (166 * exact_multiplier (activity_level details))
        <= Mm - Mf
        <= Qfloor (166 * exact_multiplier (activity_level details)) + 1)%Z.
Proof.
  intros Hv.
  destruct (maintenance_near (with_gender male details) Hv) as (Mm & Em & Hm).
  destruct (maintenance_near (with_gender female details) Hv)
    as (Mf & Ef & Hf).
  exists Mm, Mf. split; [exact Em|]. split; [exact Ef|].
  unfold exact_maintenance, exact_BMR, with_gender in Hm, Hf.
  cbn [height weight age gender activity_level] in Hm, Hf.
  set (k := Qfloor _).
  destruct (activity_level details); vm_compute in k; subst k;
    unfold exact_multiplier in Hm, Hf.
  - Z_bound (198 < Mm - Mf < 201)%Z. lia.
  - Z_bound (227 < Mm - Mf < 230)%Z. lia.
  - Z_bound (256 < Mm - Mf < 259)%Z. lia.
  - Z_bound (285 < Mm - Mf < 288)%Z. lia.
  - Z_bound (314 < Mm - Mf < 317)%Z. lia.
Qed.

Lemma calculateCalories_gender_gap_witness :
  valid_details example_male = true
  /\ exists Mm Mf : Z,
      maintenance_calories (calculateCalories (with_gender male example_male))
      = Fin (inject_Z Mm)
      /\ maintenance_calories
           (calculateCalories (with_gender female example_male))
         = Fin (inject_Z Mf)
      /\ (Qfloor (166 * exact_multiplier (activity_level example_male))
          <= Mm - Mf
          <= Qfloor (166 * exact_multiplier (activity_level example_male))
             + 1)%Z.
Proof.
  split; [reflexivity|].
  exact (calculateCalories_gender_gap example_male eq_refl).
Defined.

(** ** Accuracy, balance and ordering of [getGoalCalories] *)

(** A target times a literal near [m], divided by an integer literal [k]
    of inverse [mk], then [Math.round]. *)
Lemma round_scaled_divided_near (t c m k mk : Q) :
  Qabs t <= 12000 -> 0 <= c <= 2 ->
  Qabs (c - m) <= 1 # 1000000000000000 ->
  1 <= k -> / k == mk ->
  exists n : Z,
    Math_round ((Fin t * Fin c) / Fin k)%js = Fin (inject_Z n)
    /\ rounds_to (t * m * mk) n.
Proof.
  intros Ht Hc Hm Hk Ek.
  assert (Hcond : c * (Qabs t + 0) <= inject_Z 32768).
  { change (inject_Z 32768) with 32768. pose proof (Qabs_nonneg t). nra. }
  pose proof (fmul_near_r 32768 tiny tiny_range tiny_ok _ _ c _ (near_Fin t)
                ltac:(lra) Hcond) as H1.
  assert (H2 : near (1 # 10000000000) (Fin t * Fin c)%js (t * m)).
  { eapply near_weaken.
    - apply (near_shift _ (2 # 100000000000) _ _ _ H1).
      apply Qabs_bounds in Hm, Ht. apply Qabs_le_intro. split; nra.
    - unfold tiny. nra. }
  assert (Hp : Qabs (t * m) <= 32000).
  { apply Qabs_bounds in Hm, Ht. apply Qabs_le_intro. split; nra. }
  destruct (round_divided_near _ _ _ k mk H2 Hk Ek Hp ltac:(lra))
    as (n & E & Hn).
  exists n. split; [exact E|exact Hn].
Qed.

Lemma getGoalCalories_macros_near (t : Q) :
  Qabs t <= 12000 ->
  exists P F C : Z,
    Math_round ((Fin t * lit_0_3) / lit_4)%js = Fin (inject_Z P)
    /\ Math_round ((Fin t * lit_0_25) / lit_9)%js = Fin (inject_Z F)
    /\ Math_round ((Fin t * lit_0_45) / lit_4)%js = Fin (inject_Z C)
    /\ rounds_to (t * (3 # 40)) P
    /\ rounds_to (t * (1 # 36)) F
    /\ rounds_to (t * (9 # 80)) C.
Proof.
  intros Ht.
  destruct (round_scaled_divided_near t (value lit_0_3) (3 # 10) 4 (1 # 4) Ht
              ltac:(cbn; lra) lit_0_3_close ltac:(lra) ltac:(reflexivity))
    as (P & EP & HP).
  destruct (round_scaled_divided_near t (1 # 4) (1 # 4) 9 (1 # 9) Ht
              ltac:(lra) ltac:(abs_lra) ltac:(lra) ltac:(reflexivity))
    as (F & EF & HF).
  destruct (round_scaled_divided_near t (value lit_0_45) (45 # 100) 4 (1 # 4)
              Ht ltac:(cbn; lra) lit_0_45_close ltac:(lra) ltac:(reflexivity))
    as (C & EC & HC).
  exists P, F, C. cbn [value] in EP, EC.
  split; [exact EP|]. split; [exact EF|]. split; [exact EC|].
  unfold rounds_to in *. repeat apply conj; lra.
Qed.

Lemma getGoalCalories_target_near (m : Q) (goalType : GoalType) :
  Qabs m <= 10000 ->
  exists t : Q,
    spec_target (Fin m) goalType = Fin t
    /\ Qabs t <= 12000
    /\ match goalType with
       | maintain => t = m
       | cut => exists T : Z, t = inject_Z T /\ rounds_to (m * (8 # 10)) T
       | bulk => exists T : Z, t = inject_Z T /\ rounds_to (m * (115 # 100)) T
       end.
Proof.
  intros Hm.
  assert (He0 : 0 <= 0 <= 1 # 10000000000) by lra.
  destruct goalType; unfold spec_target.
  - destruct (round_scaled_near _ _ 0 (value lit_0_8) (8 # 10) (near_Fin m)
                ltac:(cbn; lra) ltac:(lra) He0 lit_0_8_close)
      as (T & ET & HT).
    exists (inject_Z T). cbn [value] in ET.
    split; [exact ET|]. apply Qabs_bounds in Hm.
    split; [apply Qabs_le_intro; lra|]. exists T. split; [reflexivity|exact HT].
  - destruct (round_scaled_near _ _ 0 (value lit_1_15) (115 # 100) (near_Fin m)
                ltac:(cbn; lra) ltac:(lra) He0 lit_1_15_close)
      as (T & ET & HT).
    exists (inject_Z T). cbn [value] in ET.
    split; [exact ET|]. apply Qabs_bounds in Hm.
    split; [apply Qabs_le_intro; lra|]. exists T. split; [reflexivity|exact HT].
  - exists m. split; [reflexivity|]. split; [lra|reflexivity].
Qed.

Lemma getGoalCalories_unfold (maintenance : number) (goalType : GoalType) :
  getGoalCalories maintenance goalType
  = let t := spec_target maintenance goalType in
    {| calories := t;
       protein := Math_round ((t * lit_0_3) / lit_4)%js;
       carbs := Math_round ((t * lit_0_45) / lit_4)%js;
       fat := Math_round ((t * lit_0_25) / lit_9)%js |}.
Proof. destruct goalType; reflexivity. Qed.

Lemma getGoalCalories_near (m : Q) (goalType : GoalType) :
  Qabs m <= 10000 ->
  exists (t : Q) (P F C : Z),
    getGoalCalories (Fin m) goalType
    = {| calories := Fin t; protein := Fin (inject_Z P);
         carbs := Fin (inject_Z C); fat := Fin (inject_Z F) |}
    /\ match goalType with
       | maintain => t = m
       | cut => exists T : Z, t = inject_Z T /\ rounds_to (m * (8 # 10)) T
       | bulk => exists T : Z, t = inject_Z T /\ rounds_to (m * (115 # 100)) T
       end
    /\ rounds_to (t * (3 # 40)) P
    /\ rounds_to (t * (1 # 36)) F
    /\ rounds_to (t * (9 # 80)) C.
Proof.
  intros Hm.
  destruct (getGoalCalories_target_near m goalType Hm) as (t & Et & Ht & HT).
  destruct (getGoalCalories_macros_near t Ht)
    as (P & F & C & EP & EF & EC & HP & HF & HC).
  exists t, P, F, C. rewrite getGoalCalories_unfold. cbv zeta.
  rewrite Et, EP, EF, EC.
  split; [reflexivity|]. split; [exact HT|].
  split; [exact HP|]. split; [exact HF|exact HC].
Qed.

Lemma in_range_Qabs (b : Q) (x : number) :
  in_range (- b) b x = true -> exists m : Q, x = Fin m /\ Qabs m <= b.
Proof.
  intros H. apply in_range_between in H.
  destruct x as [| |m]; unfold between in H; try tauto.
  exists m. split; [reflexivity|]. apply Qabs_le_intro. exact H.
Qed.

(** X7: for every maintenance of magnitude at most 10000, integer or not,
    the target is the maintenance (maintain) or the nearest integer to the
    exact 0.8 (cut) or 1.15 (bulk) times it, and protein, fat and
    carbohydrates are the nearest integers to the exact 3/40, 1/36 and 9/80
    of the target: the binary64 arithmetic changes nothing but, at most, the
    side a tie within 1e-9 falls on. *)
Theorem getGoalCalories_accuracy (maintenance : number) (goalType : GoalType) :
  in_range (- (10000)) 10000 maintenance = true ->
  exists (t : Q) (P F C : Z),
    getGoalCalories maintenance goalType
    = {| calories := Fin t; protein := Fin (inject_Z P);
         carbs := Fin (inject_Z C); fat := Fin (inject_Z F) |}
    /\ match goalType with
       | maintain => maintenance = Fin t
       | cut =>
           exists T : Z,
             t = inject_Z T /\ rounds_to (value maintenance * (8 # 10)) T
       | bulk =>
           exists T : Z,
             t = inject_Z T /\ rounds_to (value maintenance * (115 # 100)) T
       end
    /\ rounds_to (t * (3 # 40)) P
    /\ rounds_to (t * (1 # 36)) F
    /\ rounds_to (t * (9 # 80)) C.
Proof.
  intros H. destruct (in_range_Qabs _ _ H) as (m & -> & Hm).
  destruct (getGoalCalories_near m goalType Hm)
    as (t & P & F & C & E & HT & HP & HF & HC).
  exists t, P, F, C. cbn [value].
  split; [exact E|]. split; [|split; [exact HP|split; [exact HF|exact HC]]].
  destruct goalType; [exact HT|exact HT|]. rewrite HT. reflexivity.
Qed.

Lemma getGoalCalories_accuracy_witness :
  in_range (- (10000)) 10000 (Fin (5001 # 2)) = true
  /\ exists (t : Q) (P F C : Z),
      getGoalCalories (Fin (5001 # 2)) bulk
      = {| calories := Fin t; protein := Fin (inject_Z P);
           carbs := Fin (inject_Z C); fat := Fin (inject_Z F) |}
      /\ (exists T : Z,
             t = inject_Z T
             /\ rounds_to (value (Fin (5001 # 2)) * (115 # 100)) T)
      /\ rounds_to (t * (3 # 40)) P
      /\ rounds_to (t * (1 # 36)) F
      /\ rounds_to (t * (9 # 80)) C.
Proof.
  split; [reflexivity|].
  exact (getGoalCalories_accuracy (Fin (5001 # 2)) bulk eq_refl).
Defined.

(** An integer maintenance: the four fields as integers, each tied to the
    target by linear inequalities. *)
Lemma getGoalCalories_Z (n : Z) (goalType : GoalType) :
  (-10000 <= n <= 10000)%Z ->
  exists T P F C : Z,
    getGoalCalories (Fin (inject_Z n)) goalType
    = {| calories := Fin (inject_Z T); protein := Fin (inject_Z P);
         carbs := Fin (inject_Z C); fat := Fin (inject_Z F) |}
    /\ match goalType with
       | maintain => T = n
       | cut => (8 * n - 5 <= 10 * T <= 8 * n + 5)%Z
       | bulk => (115 * n - 50 <= 100 * T <= 115 * n + 50)%Z
       end
    /\ (3 * T - 20 <= 40 * P <= 3 * T + 20)%Z
    /\ (T - 18 <= 36 * F <= T + 18)%Z
    /\ (9 * T - 40 <= 80 * C <= 9 * T + 40)%Z.
Proof.
  intros Hn.
  assert (Hm : Qabs (inject_Z n) <= 10000).
  { apply Qabs_le_intro. apply (Q_of_Z_bounds (-10000) 10000 n Hn). }
  destruct (getGoalCalories_near _ goalType Hm)
    as (t & P & F & C & E & HT & HP & HF & HC).
  assert (ET : exists T : Z,
             t = inject_Z T
             /\ match goalType with
                | maintain => T = n
                | cut => (8 * n - 5 <= 10 * T <= 8 * n + 5)%Z
                | bulk => (115 * n - 50 <= 100 * T <= 115 * n + 50)%Z
                end).
  { destruct goalType.
    - destruct HT as (T & -> & HT). exists T. split; [reflexivity|].
      Z_bound (8 * n - 6 < 10 * T < 8 * n + 6)%Z. lia.
    - destruct HT as (T & -> & HT). exists T. split; [reflexivity|].
      Z_bound (115 * n - 51 < 100 * T < 115 * n + 51)%Z. lia.
    - exists n. split; [exact HT|reflexivity]. }
  destruct ET as (T & -> & HT').
  exists T, P, F, C. split; [exact E|]. split; [exact HT'|].
  Z_bound (3 * T - 21 < 40 * P < 3 * T + 21)%Z.
  Z_bound (T - 19 < 36 * F < T + 19)%Z.
  Z_bound (9 * T - 41 < 80 * C < 9 * T + 41)%Z.
  lia.
Qed.

Lemma fle_Z (a b : Z) :
  (a <= b)%Z -> fle (Fin (inject_Z a)) (Fin (inject_Z b)) = true.
Proof.
  intros H. unfold fle. apply Qle_bool_iff. rewrite <- Zle_Qle. exact H.
Qed.

Lemma flt_Z (a b : Z) :
  (a < b)%Z -> flt (Fin (inject_Z a)) (Fin (inject_Z b)) = true.
Proof.
  intros H. unfold flt. apply negb_true_iff.
  destruct (Qle_bool (inject_Z b) (inject_Z a)) eqn:E; [|reflexivity].
  apply Qle_bool_iff in E. rewrite <- Zle_Qle in E. lia.
Qed.

(** X8: for an integer maintenance of magnitude at most 10000 and every
    goal, the calories of the three macronutrients (4 per gram of protein
    and of carbohydrate, 9 per gram of fat) add up to the target calories
    within 7; the bound is reached on both sides: the macronutrients of a
    target of 1676 calories hold 1683, those of 1673 hold 1666. *)
Theorem getGoalCalories_balance :
  (forall (n : Z) (goalType : GoalType),
      (-10000 <= n <= 10000)%Z ->
      let r := getGoalCalories (Fin (inject_Z n)) goalType in
      Qabs (4 * value (protein r) + 9 * value (fat r) + 4 * value (carbs r)
            - value (calories r)) <= 7)
  /\ getGoalCalories (Fin 1676) maintain
     = {| calories := Fin 1676; protein := Fin 126; carbs := Fin 189;
          fat := Fin 47 |}
  /\ getGoalCalories (Fin 1673) maintain
     = {| calories := Fin 1673; protein := Fin 125; carbs := Fin 188;
          fat := Fin 46 |}.
Proof.
  split; [|split; vm_compute; reflexivity].
  intros n goalType Hn.
  destruct (getGoalCalories_Z n goalType Hn)
    as (T & P & F & C & E & _ & HP & HF & HC).
  cbv zeta. rewrite E. cbn [calories protein carbs fat value].
  assert (HZ : (-7 <= 4 * P + 9 * F + 4 * C - T <= 7)%Z) by lia.
  apply Q_of_Z_bounds in HZ.
  rewrite !inject_Z_sub, !inject_Z_plus, !inject_Z_mult in HZ.
  change (inject_Z 4) with 4 in HZ. change (inject_Z 9) with 9 in HZ.
  change (inject_Z 7) with 7 in HZ. change (inject_Z (-7)) with (-7 # 1) in HZ.
  apply Qabs_le_intro. lra.
Qed.

Lemma getGoalCalories_balance_witness :
  let r := getGoalCalories (Fin (inject_Z 2500)) cut in
  Qabs (4 * value (protein r) + 9 * value (fat r) + 4 * value (carbs r)
        - value (calories r)) <= 7.
Proof.
  apply (proj1 getGoalCalories_balance 2500%Z cut). lia.
Defined.

(** X9: for an integer maintenance from 0 to 10000, the calories of a cut
    are at most the maintenance and those of a bulk at least the
    maintenance; the cut is lower from 3 calories on and the bulk higher
    from 4 on, below which both return the maintenance unchanged. For every
    goal the grams are ordered: 0 <= fat <= protein <= carbohydrates <=
    calories. *)
Theorem getGoalCalories_ordering (n : Z) :
  (0 <= n <= 10000)%Z ->
  let m := Fin (inject_Z n) in
  (fle (calories (getGoalCalories m cut)) m = true
   /\ fle m (calories (getGoalCalories m bulk)) = true
   /\ ((3 <= n)%Z -> flt (calories (getGoalCalories m cut)) m = true)
   /\ ((n <= 2)%Z -> calories (getGoalCalories m cut) = m)
   /\ ((4 <= n)%Z -> flt m (calories (getGoalCalories m bulk)) = true)
   /\ ((n <= 3)%Z -> calories (getGoalCalories m bulk) = m))
  /\ (forall goalType,
         let r := getGoalCalories m goalType in
         fle (Fin 0) (fat r) = true
         /\ fle (fat r) (protein r) = true
         /\ fle (protein r) (carbs r) = true
         /\ fle (carbs r) (calories r) = true).
Proof.
  intros Hn m. unfold m.
  assert (Hn' : (-10000 <= n <= 10000)%Z) by lia.
  split.
  - destruct (getGoalCalories_Z n cut Hn')
      as (T & P & F & C & E & HT & _).
    destruct (getGoalCalories_Z n bulk Hn')
      as (T' & P' & F' & C' & E' & HT' & _).
    rewrite E, E'. cbn [calories].
    split; [apply fle_Z; lia|]. split; [apply fle_Z; lia|].
    split; [intros H; apply flt_Z; lia|].
    split; [intros H; do 2 f_equal; lia|].
    split; [intros H; apply flt_Z; lia|].
    intros H; do 2 f_equal; lia.
  - intros goalType.
    destruct (getGoalCalories_Z n goalType Hn')
      as (T & P & F & C & E & HT & HP & HF & HC).
    cbv zeta. rewrite E. cbn [calories protein carbs fat].
    assert (HT0 : (0 <= T)%Z) by (destruct goalType; lia).
    split; [apply (fle_Z 0 F); lia|]. split; [apply fle_Z; lia|].
    split; apply fle_Z; lia.
Qed.

Lemma getGoalCalories_ordering_witness :
  (0 <= 2500 <= 10000)%Z
  /\ (let m := Fin (inject_Z 2500) in
      (fle (calories (getGoalCalories m cut)) m = true
       /\ fle m (calories (getGoalCalories m bulk)) = true
       /\ ((3 <= 2500)%Z -> flt (calories (getGoalCalories m cut)) m = true)
       /\ ((2500 <= 2)%Z -> calories (getGoalCalories m cut) = m)
       /\ ((4 <= 2500)%Z -> flt m (calories (getGoalCalories m bulk)) = true)
       /\ ((2500 <= 3)%Z -> calories (getGoalCalories m bulk) = m))
      /\ (forall goalType,
             let r := getGoalCalories m goalType in
             fle (Fin 0) (fat r) = true
             /\ fle (fat r) (protein r) = true
             /\ fle (protein r) (carbs r) = true
             /\ fle (carbs r) (calories r) = true)).
Proof.
  split; [lia|].
  apply (getGoalCalories_ordering 2500). lia.
Defined.

(** ** The two operations together *)

(** X10: for a user within the validated ranges, [getGoalCalories] applied
    to the maintenance of [calculateCalories] returns, as calories, the cut,
    the bulk or the maintenance that [calculateCalories] reports, and its
    protein lies between 19 and 738 grams, its fat between 7 and 273 and its
    carbohydrates between 29 and 1107; the cut of the lightest user and the
    bulk of the heaviest reach these bounds. *)
Theorem goal_of_validated_user :
  (forall (details : UserDetails) (goalType : GoalType),
      valid_details details = true ->
      let r := calculateCalories details in
      let q := getGoalCalories (maintenance_calories r) goalType in
      calories q
      = match goalType with
        | cut => cut_calories r
        | bulk => bulk_calories r
        | maintain => maintenance_calories r
        end
      /\ between 19 738 (protein q)
      /\ between 7 273 (fat q)
      /\ between 29 1107 (carbs q))
  /\ getGoalCalories (maintenance_calories (calculateCalories example_min))
       cut
     = {| calories := Fin 254; protein := Fin 19; carbs := Fin 29;
          fat := Fin 7 |}
  /\ getGoalCalories (maintenance_calories (calculateCalories example_max))
       bulk
     = {| calories := Fin 9838; protein := Fin 738; carbs := Fin 1107;
          fat := Fin 273 |}.
Proof.
  split; [|split; vm_compute; reflexivity].
  intros details goalType Hv. cbv zeta.
  split; [destruct goalType; reflexivity|].
  destruct (calculateCalories_near _ Hv)
    as (M & CUT & BULK & P & FC & F & C & E & _ & HM & _).
  pose proof (exact_maintenance_range _ Hv) as HR.
  Z_bound (316 < M < 8556)%Z.
  rewrite E. cbn [maintenance_calories].
  destruct (getGoalCalories_Z M goalType ltac:(lia))
    as (T & P' & F' & C' & E' & HT & HP & HF & HC).
  rewrite E'. cbn [protein carbs fat].
  assert (HT' : (254 <= T <= 9838)%Z) by (destruct goalType; lia).
  split; [apply (between_Z 19 738 P'); lia|].
  split; [apply (between_Z 7 273 F'); lia|].
  apply (between_Z 29 1107 C'); lia.
Qed.

Lemma goal_of_validated_user_witness :
  let r := calculateCalories example_male in
  let q := getGoalCalories (maintenance_calories r) cut in
  calories q = cut_calories r
  /\ between 19 738 (protein q)
  /\ between 7 273 (fat q)
  /\ between 29 1107 (carbs q).
Proof.
  exact (proj1 goal_of_validated_user example_male cut eq_refl).
Defined.

(** ** Monotonicity and NaN *)

Lemma fdiv_mono_l (c : Q) (x y : number) :
  0 < c -> fle x y = true -> fle (x / Fin c)%js (y / Fin c)%js = true.
Proof.
  intros Hc. destruct x as [|s|a], y as [|t|b]; unfold fle at 1, fdiv;
    rewrite ?(Qzero_false c Hc), ?(Qneg_false c Hc); intros H; fle_cases.
  apply rnd64_mono. apply Qle_bool_iff in H.
  unfold Qdiv. apply Qmult_le_compat_r; [exact H|].
  apply Qlt_le_weak. apply Qinv_lt_0_compat. exact Hc.
Qed.

Lemma fmul_not_nan (c : Q) (x : number) :
  0 < c -> is_nan (x * Fin c)%js = is_nan x.
Proof.
  intros Hc. destruct x as [|s|a]; unfold fmul;
    rewrite ?(Qzero_false c Hc); [reflexivity..|].
  apply rnd64_not_nan.
Qed.

Lemma fdiv_not_nan (c : Q) (x : number) :
  0 < c -> is_nan (x / Fin c)%js = is_nan x.
Proof.
  intros Hc. destruct x as [|s|a]; unfold fdiv;
    rewrite ?(Qzero_false c Hc); [reflexivity..|].
  apply rnd64_not_nan.
Qed.

(** A macro of [getGoalCalories] as a function of the target. *)
Lemma goal_macro_mono (c d : Q) (t1 t2 : number) :
  0 < c -> 0 < d -> fle t1 t2 = true ->
  fle (Math_round ((t1 * Fin c) / Fin d)%js)
      (Math_round ((t2 * Fin c) / Fin d)%js) = true.
Proof.
  intros Hc Hd H. apply Math_round_mono. apply fdiv_mono_l; [exact Hd|].
  apply fmul_mono_r; [exact Hc|exact H].
Qed.

Lemma goal_macro_nan (c d : Q) (t : number) :
  0 < c -> 0 < d ->
  is_nan (Math_round ((t * Fin c) / Fin d)%js) = is_nan t.
Proof.
  intros Hc Hd.
  rewrite Math_round_nan, (fdiv_not_nan d _ Hd), (fmul_not_nan c _ Hc).
  reflexivity.
Qed.

Lemma spec_target_mono (m1 m2 : number) (goalType : GoalType) :
  fle m1 m2 = true ->
  fle (spec_target m1 goalType) (spec_target m2 goalType) = true.
Proof.
  intros H. destruct goalType; unfold spec_target; [| |exact H];
    apply Math_round_mono; apply fmul_mono_r; [reflexivity|exact H
                                              |reflexivity|exact H].
Qed.

Lemma spec_target_nan (m : number) (goalType : GoalType) :
  is_nan (spec_target m goalType) = is_nan m.
Proof.
  destruct goalType; unfold spec_target; [| |reflexivity];
    rewrite Math_round_nan; apply fmul_not_nan; reflexivity.
Qed.

(** X11: every field of [getGoalCalories] is a non-decreasing function of
    the maintenance, over all numbers, the two infinities included: a
    maintenance that is no smaller never gives fewer calories or fewer grams
    of a macronutrient. *)
Theorem getGoalCalories_monotone (m1 m2 : number) (goalType : GoalType) :
  fle m1 m2 = true ->
  let r1 := getGoalCalories m1 goalType in
  let r2 := getGoalCalories m2 goalType in
  fle (calories r1) (calories r2) = true
  /\ fle (protein r1) (protein r2) = true
  /\ fle (fat r1) (fat r2) = true
  /\ fle (carbs r1) (carbs r2) = true.
Proof.
  intros H. cbv zeta. rewrite !getGoalCalories_unfold. cbv zeta.
  cbn [calories protein fat carbs].
  pose proof (spec_target_mono _ _ goalType H) as HT.
  split; [exact HT|].
  split; [apply goal_macro_mono; [reflexivity|reflexivity|exact HT]|].
  split; apply goal_macro_mono; [reflexivity|reflexivity|exact HT
                                |reflexivity|reflexivity|exact HT].
Qed.

Lemma getGoalCalories_monotone_witness :
  fle (Fin 2000) (Fin 2500) = true
  /\ (let r1 := getGoalCalories (Fin 2000) bulk in
      let r2 := getGoalCalories (Fin 2500) bulk in
      fle (calories r1) (calories r2) = true
      /\ fle (protein r1) (protein r2) = true
      /\ fle (fat r1) (fat r2) = true
      /\ fle (carbs r1) (carbs r2) = true).
Proof.
  split; [reflexivity|].
  exact (getGoalCalories_monotone (Fin 2000) (Fin 2500) bulk eq_refl).
Defined.

(** X12: [getGoalCalories] never makes a NaN of its own: for every goal,
    each of its four fields is NaN exactly when the maintenance is NaN, so
    that a finite or infinite maintenance never gives a NaN. *)
Theorem getGoalCalories_nan (maintenance : number) (goalType : GoalType) :
  let r := getGoalCalories maintenance goalType in
  is_nan (calories r) = is_nan maintenance
  /\ is_nan (protein r) = is_nan maintenance
  /\ is_nan (fat r) = is_nan maintenance
  /\ is_nan (carbs r) = is_nan maintenance.
Proof.
  cbv zeta. rewrite getGoalCalories_unfold. cbv zeta.
  cbn [calories protein fat carbs].
  pose proof (spec_target_nan maintenance goalType) as HT.
  unfold lit_0_3, lit_0_25, lit_0_45, lit_4, lit_9.
  split; [exact HT|].
  split; [rewrite goal_macro_nan; [exact HT|reflexivity|reflexivity]|].
  split; (rewrite goal_macro_nan; [exact HT|reflexivity|reflexivity]).
Qed.

Lemma fadd_mono (x y z u : number) :
  fle x y = true -> fle z u = true ->
  is_nan (x + z)%js = false -> is_nan (y + u)%js = false ->
  fle (x + z)%js (y + u)%js = true.
Proof.
  destruct x as [|s|a], y as [|t|b], z as [|s'|c], u as [|t'|d];
    unfold fle at 1 2, fadd; intros H1 H2; cbn [Bool.eqb is_nan];
    intros N1 N2; fle_cases.
  apply rnd64_mono. apply Qle_bool_iff in H1, H2. lra.
Qed.

Lemma fsub_mono (x y z u : number) :
  fle x y = true -> fle u z = true ->
  is_nan (x - z)%js = false -> is_nan (y - u)%js = false ->
  fle (x - z)%js (y - u)%js = true.
Proof.
  destruct x as [|s|a], y as [|t|b], z as [|s'|c], u as [|t'|d];
    unfold fle at 1 2, fsub; intros H1 H2; cbn [Bool.eqb is_nan negb];
    intros N1 N2; fle_cases.
  apply rnd64_mono. apply Qle_bool_iff in H1, H2. lra.
Qed.

(** The basal rate grows with the weight and the height and falls with
    the age, as long as no NaN comes up. *)
Lemma calculateBMR_mono (w1 w2 h1 h2 a1 a2 : number) (g : Gender) :
  fle w1 w2 = true -> fle h1 h2 = true -> fle a2 a1 = true ->
  is_nan (calculateBMR w1 h1 a1 g) = false ->
  is_nan (calculateBMR w2 h2 a2 g) = false ->
  fle (calculateBMR w1 h1 a1 g) (calculateBMR w2 h2 a2 g) = true.
Proof.
  intros Hw Hh Ha N1 N2.
  assert (H10 : fle (lit_10 * w1)%js (lit_10 * w2)%js = true)
    by (apply fmul_mono_l; [reflexivity|exact Hw]).
  assert (H6 : fle (lit_6_25 * h1)%js (lit_6_25 * h2)%js = true)
    by (apply fmul_mono_l; [reflexivity|exact Hh]).
  assert (H5 : fle (lit_5 * a2)%js (lit_5 * a1)%js = true)
    by (apply fmul_mono_l; [reflexivity|exact Ha]).
  destruct g; unfold calculateBMR in *.
  - pose proof (fadd_nan_l _ _ N1) as N1a. pose proof (fadd_nan_l _ _ N2) as N2a.
    pose proof (fsub_nan_l _ _ N1a) as N1b.
    pose proof (fsub_nan_l _ _ N2a) as N2b.
    apply fadd_mono_l; trivial. apply fsub_mono; trivial.
    apply fadd_mono; trivial.
  - pose proof (fsub_nan_l _ _ N1) as N1a. pose proof (fsub_nan_l _ _ N2) as N2a.
    pose proof (fsub_nan_l _ _ N1a) as N1b.
    pose proof (fsub_nan_l _ _ N2a) as N2b.
    apply fsub_mono_l; trivial. apply fsub_mono; trivial.
    apply fadd_mono; trivial.
Qed.

Lemma between_not_nan (lo hi : Q) (x : number) :
  between lo hi x -> is_nan x = false.
Proof. destruct x; unfold between; [tauto|reflexivity..]. Qed.

Lemma multiplier_mono (l1 l2 : ActivityLevel) :
  (level_rank l1 <= level_rank l2)%nat ->
  exists c1 c2 : Q,
    ACTIVITY_MULTIPLIERS l1 = Fin c1 /\ ACTIVITY_MULTIPLIERS l2 = Fin c2
    /\ 0 < c1 <= c2.
Proof.
  destruct l1, l2; cbn [level_rank]; intros H; try lia;
    unfold ACTIVITY_MULTIPLIERS, lit_1_2, lit_1_375, lit_1_55, lit_1_725,
      lit_1_9; do 2 eexists; (split; [reflexivity|]);
    (split; [reflexivity|]); lra.
Qed.

Lemma fmul_mono_both (a b c d : Q) :
  0 <= a <= b -> 0 <= c <= d -> fle (Fin a * Fin c)%js (Fin b * Fin d)%js = true.
Proof.
  intros Hab Hcd. unfold fmul. apply rnd64_mono. nra.
Qed.

(** X13: of two users within the validated ranges with the same gender, the
    one who is no lighter, no shorter, no older and no less active gets at
    least the maintenance, cut, bulk and fat of the other, and at least the
    protein. The carbohydrates do not follow: from 32 kg to 32.25 kg they
    fall from 215 to 214 grams. *)
Theorem calculateCalories_monotone :
  (forall d1 d2 : UserDetails,
      valid_details d1 = true -> valid_details d2 = true ->
      gender d1 = gender d2 ->
      (level_rank (activity_level d1) <= level_rank (activity_level d2))%nat ->
      fle (weight d1) (weight d2) = true ->
      fle (height d1) (height d2) = true ->
      fle (age d2) (age d1) = true ->
      let r1 := calculateCalories d1 in
      let r2 := calculateCalories d2 in
      fle (maintenance_calories r1) (maintenance_calories r2) = true
      /\ fle (cut_calories r1) (cut_calories r2) = true
      /\ fle (bulk_calories r1) (bulk_calories r2) = true
      /\ fle (protein_grams r1) (protein_grams r2) = true
      /\ fle (fat_grams r1) (fat_grams r2) = true)
  /\ valid_details example_32 = true
  /\ valid_details example_32_25 = true
  /\ fle (weight example_32) (weight example_32_25) = true
  /\ carbs_grams (calculateCalories example_32) = Fin 215
  /\ carbs_grams (calculateCalories example_32_25) = Fin 214.
Proof.
  split; [|repeat apply conj; vm_compute; reflexivity].
  intros d1 d2 V1 V2 Eg Hl Hw Hh Ha. cbv zeta.
  pose proof (bmr_valid d1 V1) as B1. pose proof (bmr_valid d2 V2) as B2.
  pose proof (between_not_nan _ _ _ B1) as N1.
  pose proof (between_not_nan _ _ _ B2) as N2.
  unfold bmr_of in B1, B2, N1, N2. rewrite <- Eg in N2, B2.
  pose proof (calculateBMR_mono _ _ _ _ _ _ _ Hw Hh Ha N1 N2) as HB.
  assert (HM : fle (maintenance_calories (calculateCalories d1))
                   (maintenance_calories (calculateCalories d2)) = true).
  { unfold calculateCalories. cbn [maintenance_calories].
    rewrite <- Eg.
    destruct (multiplier_mono _ _ Hl) as (c1 & c2 & -> & -> & Hc).
    apply Math_round_mono.
    destruct (calculateBMR (weight d1) _ _ _) as [| |b1]; [destruct B1..|].
    destruct (calculateBMR (weight d2) _ _ _) as [| |b2]; [destruct B2..|].
    unfold between in B1, B2. unfold fle in HB. apply Qle_bool_iff in HB.
    apply fmul_mono_both; lra. }
  split; [exact HM|]. revert HM.
  unfold calculateCalories.
  cbn [maintenance_calories cut_calories bulk_calories protein_grams
       fat_grams]. intros HM.
  split; [apply Math_round_mono, fmul_mono_r; [reflexivity|exact HM]|].
  split; [apply Math_round_mono, fmul_mono_r; [reflexivity|exact HM]|].
  split; [apply Math_round_mono, fmul_mono_r; [reflexivity|exact Hw]|].
  apply Math_round_mono, fdiv_mono_l; [reflexivity|].
  apply Math_round_mono, fmul_mono_r; [reflexivity|exact HM].
Qed.

Lemma calculateCalories_monotone_witness :
  let r1 := calculateCalories example_female in
  let r2 := calculateCalories example_female_heavier in
  fle (maintenance_calories r1) (maintenance_calories r2) = true
  /\ fle (cut_calories r1) (cut_calories r2) = true
  /\ fle (bulk_calories r1) (bulk_calories r2) = true
  /\ fle (protein_grams r1) (protein_grams r2) = true
  /\ fle (fat_grams r1) (fat_grams r2) = true.
Proof.
  exact (proj1 calculateCalories_monotone example_female
           example_female_heavier eq_refl eq_refl eq_refl (le_n 0) eq_refl
           eq_refl eq_refl).
Defined.

(** * The details form *)

(** ** The schema *)

Lemma flt_false_fle (x y : number) :
  is_nan x = false -> is_nan y = false -> flt x y = false -> fle y x = true.
Proof.
  destruct x as [|s|a], y as [|t|b]; try discriminate; intros _ _;
    unfold flt, fle.
  - destruct s, t; cbn; congruence.
  - destruct s; cbn; congruence.
  - destruct t; cbn; congruence.
  - intros H. apply negb_false_iff in H. exact H.
Qed.

Lemma fle_flt_false (x y : number) : fle y x = true -> flt x y = false.
Proof.
  destruct x as [|s|a], y as [|t|b]; try discriminate; unfold flt, fle.
  - destruct s, t; cbn; congruence.
  - destruct s; cbn; congruence.
  - destruct t; cbn; congruence.
  - intros H. rewrite H. reflexivity.
Qed.

Lemma in_range_not_nan (lo hi : Q) (x : number) :
  in_range lo hi x = true -> is_nan x = false.
Proof. destruct x; [discriminate|reflexivity..]. Qed.

Lemma number_issues_nil (h : Host) (lo hi : Q) (lm hm : string) (x : number) :
  number_issues h lo lm hi hm x = [] <-> in_range lo hi x = true.
Proof.
  unfold number_issues. split.
  - unfold in_range. destruct x as [|s|a]; [discriminate| |];
      (destruct (flt _ (Fin lo)) eqn:E1; [discriminate|];
       destruct (flt (Fin hi) _) eqn:E2; [discriminate|]; intros _;
       apply andb_true_iff; split; apply flt_false_fle; trivial).
  - intros H. pose proof (in_range_not_nan _ _ _ H) as N.
    unfold in_range in H. apply andb_true_iff in H. destruct H as [H1 H2].
    apply fle_flt_false in H1, H2.
    destruct x as [|s|a]; [discriminate N| |]; rewrite H1, H2; reflexivity.
Qed.

Lemma gender_of_string_In (s : string) :
  gender_of_string s <> None <-> In s gender_options.
Proof.
  unfold gender_of_string, gender_options. cbn [In].
  destruct (String.eqb_spec s "male");
    [subst; split; [auto|discriminate]|].
  destruct (String.eqb_spec s "female");
    [subst; split; [auto|discriminate]|].
  split; [congruence|]. intros [H|[H|[]]]; congruence.
Qed.

Lemma activity_level_of_string_In (s : string) :
  activity_level_of_string s <> None <-> In s activity_level_options.
Proof.
  unfold activity_level_of_string, activity_level_options. cbn [In].
  destruct (String.eqb_spec s "sedentary");
    [subst; split; [auto|discriminate]|].
  destruct (String.eqb_spec s "lightly_active");
    [subst; split; [auto|discriminate]|].
  destruct (String.eqb_spec s "moderately_active");
    [subst; split; [auto 6|discriminate]|].
  destruct (String.eqb_spec s "very_active");
    [subst; split; [auto 6|discriminate]|].
  destruct (String.eqb_spec s "extra_active");
    [subst; split; [auto 7|discriminate]|].
  split; [congruence|]. intros [H|[H|[H|[H|[H|[]]]]]]; congruence.
Qed.

Lemma enum_issues_nil {A : Type} (h : Host) (options : list string)
    (s : string) (parsed : option A) :
  enum_issues h options s parsed = [] <-> parsed <> None.
Proof.
  destruct parsed; cbn; split; congruence.
Qed.

Lemma app_nil_both {A : Type} (l l' : list A) :
  l ++ l' = [] <-> l = [] /\ l' = [].
Proof.
  split; [apply app_eq_nil|]. intros [-> ->]. reflexivity.
Qed.

Lemma detailsSchema_issues_nil (h : Host) (data : FormData) :
  detailsSchema_issues h data = []
  <-> (in_range 100 250 (data_height data) = true
       /\ in_range 30 300 (data_weight data) = true
       /\ in_range 13 100 (data_age data) = true
       /\ gender_of_string (data_gender data) <> None
       /\ activity_level_of_string (data_activity_level data) <> None).
Proof.
  unfold detailsSchema_issues.
  rewrite !app_nil_both, !number_issues_nil, !enum_issues_nil.
  tauto.
Qed.

(** What [detailsSchema.parse] returns when it returns. *)
Lemma detailsSchema_parse_inr (h : Host) (data : FormData) (v : UserDetails) :
  detailsSchema_parse h data = inr v ->
  valid_details v = true
  /\ height v = data_height data /\ weight v = data_weight data
  /\ age v = data_age data
  /\ gender_of_string (data_gender data) = Some (gender v)
  /\ activity_level_of_string (data_activity_level data)
     = Some (activity_level v).
Proof.
  unfold detailsSchema_parse.
  destruct (detailsSchema_issues h data) eqn:E; [|discriminate].
  apply detailsSchema_issues_nil in E.
  destruct E as (Hh & Hw & Ha & _ & _).
  destruct (gender_of_string _) as [g|]; [|discriminate].
  destruct (activity_level_of_string _) as [l|]; [|discriminate].
  intros H. injection H as <-. cbn [height weight age gender activity_level].
  unfold valid_details. cbn [height weight age]. rewrite Hh, Hw, Ha.
  repeat apply conj; reflexivity.
Qed.

(** A [ZodError] holds at least one issue. *)
Lemma detailsSchema_parse_inl (h : Host) (data : FormData)
    (issues : list string) :
  detailsSchema_parse h data = inl issues ->
  issues = detailsSchema_issues h data /\ issues <> [].
Proof.
  unfold detailsSchema_parse.
  destruct (detailsSchema_issues h data) as [|m l] eqn:E.
  - apply detailsSchema_issues_nil in E.
    destruct E as (_ & _ & _ & Hg & Hl).
    destruct (gender_of_string _); [|congruence].
    destruct (activity_level_of_string _); [discriminate|congruence].
  - intros H. injection H as <-. split; [reflexivity|discriminate].
Qed.

(** X14: [detailsSchema] accepts an object exactly when its height lies
    between 100 and 250, its weight between 30 and 300 and its age between
    13 and 100, all bounds included, and its gender and activity level are
    among the listed names; NaN and the two infinities are refused. *)
Theorem detailsSchema_parse_accepts (h : Host) (data : FormData) :
  (exists v, detailsSchema_parse h data = inr v)
  <-> (in_range 100 250 (data_height data) = true
       /\ in_range 30 300 (data_weight data) = true
       /\ in_range 13 100 (data_age data) = true
       /\ In (data_gender data) gender_options
       /\ In (data_activity_level data) activity_level_options).
Proof.
  rewrite <- gender_of_string_In, <- activity_level_of_string_In.
  rewrite <- (detailsSchema_issues_nil h). unfold detailsSchema_parse. split.
  - intros (v & H). destruct (detailsSchema_issues h data); [reflexivity|].
    discriminate H.
  - intros E. rewrite E. apply detailsSchema_issues_nil in E.
    destruct E as (_ & _ & _ & Hg & Hl).
    destruct (gender_of_string _); [|congruence].
    destruct (activity_level_of_string _); [|congruence].
    eexists. reflexivity.
Qed.

(** ** The submit handler *)

(** [parseInt] gives an integer or NaN: within the range of the schema its
    result is an integer. *)
Lemma number_of_parseInt_integer (r : option Z) :
  in_range 13 100 (number_of_parseInt r) = true ->
  is_integer (number_of_parseInt r) = true.
Proof.
  destruct r as [n|]; [|discriminate]. unfold number_of_parseInt.
  destruct (Z_lt_le_dec (Z.abs n) (2 ^ 53)) as [Hn|Hn].
  - rewrite (rnd64_Z n Hn). intros _. unfold is_integer.
    rewrite Qred_inject_Z. reflexivity.
  - intros H. exfalso. unfold in_range in H. apply andb_true_iff in H.
    destruct H as [H1 H2].
    assert (Hc : (n <= -1000 \/ 1000 <= n)%Z) by lia.
    destruct Hc as [Hc|Hc].
    + assert (Hm : fle (rnd64 (inject_Z n)) (rnd64 (inject_Z (-1000))) = true).
      { apply rnd64_mono. rewrite <- Zle_Qle. exact Hc. }
      rewrite (rnd64_Z (-1000)) in Hm by reflexivity.
      destruct (rnd64 (inject_Z n)) as [|s|q]; [discriminate|destruct s;
        discriminate|].
      unfold fle in H1, Hm. apply Qle_bool_iff in H1, Hm.
      change (inject_Z (-1000)) with (-1000 # 1) in Hm. lra.
    + assert (Hm : fle (rnd64 (inject_Z 1000)) (rnd64 (inject_Z n)) = true).
      { apply rnd64_mono. rewrite <- Zle_Qle. exact Hc. }
      rewrite (rnd64_Z 1000) in Hm by reflexivity.
      destruct (rnd64 (inject_Z n)) as [|s|q]; [discriminate|destruct s;
        discriminate|].
      unfold fle in H2, Hm. apply Qle_bool_iff in H2, Hm.
      change (inject_Z 1000) with 1000 in Hm. lra.
Qed.

(** The object that the handler hands to the schema. *)
Lemma handleSubmit_logged_in (h : Host) (st : FormState) (user_id : string) :
  getUser h = returned (Some user_id) ->
  handleSubmit h st
  = [preventDefault; setIsLoading true]
    ++ match detailsSchema_parse h
               {| data_height := parseFloat h (state_height st);
                  data_weight := parseFloat h (state_weight st);
                  data_age := number_of_parseInt (parseInt h (state_age st));
                  data_gender := state_gender st;
                  data_activity_level := state_activityLevel st |} with
       | inl (message :: _) => [toast_error message]
       | inl [] => []
       | inr validatedData =>
           upsert user_id validatedData
           :: match upsert_error h user_id validatedData with
              | returned None =>
                  [toast_success "Details saved successfully!";
                   navigate "/premium-nutrition-tracker"]
              | _ =>
                  [toast_error "Failed to save details. Please try again."]
              end
       end
    ++ [setIsLoading false].
Proof. intros E. unfold handleSubmit. rewrite E. reflexivity. Qed.

(** X15: whatever the handler sends to the back end is sent for the user of
    the session and has passed the schema: its height, weight and age are
    the numbers read from the form and lie within the validated ranges, its
    age is an integer, and its gender and activity level are those named in
    the form. *)
Theorem handleSubmit_saves_validated (h : Host) (st : FormState)
    (user_id : string) (v : UserDetails) :
  In (upsert user_id v) (handleSubmit h st) ->
  getUser h = returned (Some user_id)
  /\ valid_details v = true
  /\ is_integer (age v) = true
  /\ height v = parseFloat h (state_height st)
  /\ weight v = parseFloat h (state_weight st)
  /\ age v = number_of_parseInt (parseInt h (state_age st))
  /\ gender_of_string (state_gender st) = Some (gender v)
  /\ activity_level_of_string (state_activityLevel st)
     = Some (activity_level v).
Proof.
  destruct (getUser h) as [|[u|]] eqn:EU.
  - unfold handleSubmit. rewrite EU. cbn [app In].
    intros [H|[H|[H|[H|[]]]]]; discriminate H.
  - rewrite (handleSubmit_logged_in h st u EU).
    destruct (detailsSchema_parse h _) as [[|m l]|w] eqn:EP.
    + cbn [app In]. intros [H|[H|[H|[]]]]; discriminate H.
    + cbn [app In]. intros [H|[H|[H|[H|[]]]]]; discriminate H.
    + intros H.
      assert (E : upsert user_id v = upsert u w).
      { cbn [app In] in H. destruct H as [H|[H|[H|H]]];
          [discriminate H|discriminate H|symmetry; exact H|].
        destruct (upsert_error h u w) as [|[e|]]; cbn [app In] in H;
          repeat (destruct H as [H|H]; [discriminate H|]); destruct H. }
      injection E as -> ->.
      destruct (detailsSchema_parse_inr _ _ _ EP)
        as (Hv & Eh & Ew & Ea & Eg & El).
      cbn [data_height data_weight data_age data_gender data_activity_level]
        in Eh, Ew, Ea, Eg, El.
      split; [reflexivity|]. split; [exact Hv|].
      split; [|repeat apply conj; assumption].
      rewrite Ea. apply number_of_parseInt_integer. rewrite <- Ea.
      unfold valid_details in Hv. apply andb_true_iff in Hv. apply Hv.
  - unfold handleSubmit. rewrite EU. cbn [app In].
    intros [H|[H|[H|[H|[H|[]]]]]]; discriminate H.
Qed.

Lemma handleSubmit_saves_validated_witness :
  In (upsert "user-1" example_male) (handleSubmit example_host example_state)
  /\ getUser example_host = returned (Some "user-1"%string)
  /\ valid_details example_male = true
  /\ is_integer (age example_male) = true
  /\ height example_male = parseFloat example_host (state_height example_state)
  /\ weight example_male = parseFloat example_host (state_weight example_state)
  /\ age example_male
     = number_of_parseInt (parseInt example_host (state_age example_state))
  /\ gender_of_string (state_gender example_state)
     = Some (gender example_male)
  /\ activity_level_of_string (state_activityLevel example_state)
     = Some (activity_level example_male).
Proof.
  assert (H : In (upsert "user-1" example_male)
                (handleSubmit example_host example_state)).
  { vm_compute. right. right. left. reflexivity. }
  split; [exact H|].
  exact (handleSubmit_saves_validated example_host example_state _ _ H).
Defined.

(** X16: every run of the handler starts by preventing the default
    submission and raising the loading flag, ends by lowering the flag, and
    shows exactly one toast in between. It shows the success toast exactly
    when the back end returned without error for the upsert it sent, goes to
    the tracker exactly then, and goes to the login page exactly when the
    session holds no user. *)
Theorem handleSubmit_trace (h : Host) (st : FormState) :
  exists mid : list Effect,
    handleSubmit h st
    = preventDefault :: setIsLoading true :: mid ++ [setIsLoading false]
    /\ toasts mid = 1%nat
    /\ (forall b, ~ In (setIsLoading b) mid)
    /\ ~ In preventDefault mid
    /\ (In (toast_success "Details saved successfully!") mid
        <-> exists user_id v,
              In (upsert user_id v) mid
              /\ upsert_error h user_id v = returned None)
    /\ (In (navigate "/premium-nutrition-tracker") mid
        <-> In (toast_success "Details saved successfully!") mid)
    /\ (In (navigate "/auth") mid <-> getUser h = returned None).
Proof.
  destruct (getUser h) as [|[u|]] eqn:EU.
  - exists [toast_error "Failed to save details. Please try again."].
    split; [unfold handleSubmit; rewrite EU; reflexivity|].
    split; [reflexivity|]. cbn [In].
    split; [intros b [H|[]]; discriminate H|].
    split; [intros [H|[]]; discriminate H|].
    split; [split; [intros [H|[]]; discriminate H
                   |intros (x & v & [H|[]] & _); discriminate H]|].
    split; [split; intros [H|[]]; discriminate H|].
    split; [intros [H|[]]; discriminate H|discriminate].
  - rewrite (handleSubmit_logged_in h st u EU).
    destruct (detailsSchema_parse h _) as [[|m l]|w] eqn:EP.
    + destruct (detailsSchema_parse_inl _ _ _ EP) as [_ H]. congruence.
    + exists [toast_error m].
      split; [reflexivity|]. split; [reflexivity|]. cbn [In].
      split; [intros b [H|[]]; discriminate H|].
      split; [intros [H|[]]; discriminate H|].
      split; [split; [intros [H|[]]; discriminate H
                     |intros (x & v & [H|[]] & _); discriminate H]|].
      split; [split; intros [H|[]]; discriminate H|].
      split; [intros [H|[]]; discriminate H|discriminate].
    + destruct (upsert_error h u w) as [|[e|]] eqn:EE.
      * exists [upsert u w;
                toast_error "Failed to save details. Please try again."].
        split; [reflexivity|]. split; [reflexivity|]. cbn [In].
        split; [intros b [H|[H|[]]]; discriminate H|].
        split; [intros [H|[H|[]]]; discriminate H|].
        split; [split; [intros [H|[H|[]]]; discriminate H|]|].
        { intros (x & v & [H|[H|[]]] & E); [|discriminate H].
          injection H as <- <-. congruence. }
        split; [split; intros [H|[H|[]]]; discriminate H|].
        split; [intros [H|[H|[]]]; discriminate H|discriminate].
      * exists [upsert u w;
                toast_error "Failed to save details. Please try again."].
        split; [reflexivity|]. split; [reflexivity|]. cbn [In].
        split; [intros b [H|[H|[]]]; discriminate H|].
        split; [intros [H|[H|[]]]; discriminate H|].
        split; [split; [intros [H|[H|[]]]; discriminate H|]|].
        { intros (x & v & [H|[H|[]]] & E); [|discriminate H].
          injection H as <- <-. congruence. }
        split; [split; intros [H|[H|[]]]; discriminate H|].
        split; [intros [H|[H|[]]]; discriminate H|discriminate].
      * exists [upsert u w; toast_success "Details saved successfully!";
                navigate "/premium-nutrition-tracker"].
        split; [reflexivity|]. split; [reflexivity|]. cbn [In].
        split; [intros b [H|[H|[H|[]]]]; discriminate H|].
        split; [intros [H|[H|[H|[]]]]; discriminate H|].
        split; [split; [intros _; exists u, w; split; [left; reflexivity
                                                      |exact EE]
                       |intros _; right; left; reflexivity]|].
        split; [split; intros _; [right; left; reflexivity
                                 |right; right; left; reflexivity]|].
        split; [intros [H|[H|[H|[]]]]; discriminate H|discriminate].
  - exists [toast_error "You must be logged in"; navigate "/auth"].
    split; [unfold handleSubmit; rewrite EU; reflexivity|].
    split; [reflexivity|]. cbn [In].
    split; [intros b [H|[H|[]]]; discriminate H|].
    split; [intros [H|[H|[]]]; discriminate H|].
    split; [split; [intros [H|[H|[]]]; discriminate H
                   |intros (x & v & [H|[H|[]]] & _); discriminate H]|].
    split; [split; intros [H|[H|[]]]; discriminate H|].
    split; [intros _; reflexivity|intros _; right; left; reflexivity].
Qed.

(** The toast of a refused form is the first issue of the schema. *)
Lemma handleSubmit_first_issue (h : Host) (st : FormState) (user_id : string)
    (m : string) (l : list string) :
  getUser h = returned (Some user_id) ->
  detailsSchema_issues h
    {| data_height := parseFloat h (state_height st);
       data_weight := parseFloat h (state_weight st);
       data_age := number_of_parseInt (parseInt h (state_age st));
       data_gender := state_gender st;
       data_activity_level := state_activityLevel st |} = m :: l ->
  handleSubmit h st
  = [preventDefault; setIsLoading true; toast_error m; setIsLoading false].
Proof.
  intros EU EI. rewrite (handleSubmit_logged_in h st user_id EU).
  unfold detailsSchema_parse. rewrite EI. reflexivity.
Qed.

Lemma handleSubmit_height_issue (h : Host) (st : FormState)
    (user_id : string) (m : string) (l : list string) :
  getUser h = returned (Some user_id) ->
  number_issues h 100 "Height must be at least 100 cm"
    250 "Height must be less than 250 cm" (parseFloat h (state_height st))
  = m :: l ->
  handleSubmit h st
  = [preventDefault; setIsLoading true; toast_error m; setIsLoading false].
Proof.
  intros EU EI. eapply handleSubmit_first_issue; [exact EU|].
  unfold detailsSchema_issues. cbn [data_height]. rewrite EI. reflexivity.
Qed.

Lemma flt_above_not_below (lo hi : Q) (x : number) :
  lo <= hi -> flt (Fin hi) x = true -> flt x (Fin lo) = false.
Proof.
  intros Hlh.
  destruct x as [|s|q]; [discriminate|destruct s; cbn; congruence|].
  unfold flt. intros H. apply negb_true_iff in H. apply negb_false_iff.
  apply Qle_bool_iff.
  destruct (Qlt_le_dec hi q) as [Hq|Hq]; [lra|].
  apply Qle_bool_iff in Hq. congruence.
Qed.

(** X17: with a user logged in, a height that is not a number, below 100 or
    above 250 decides the outcome whatever the other fields hold: nothing is
    sent to the back end, and the one toast is zod's message for NaN,
    'Height must be at least 100 cm' or 'Height must be less than 250 cm'. *)
Theorem handleSubmit_height_message (h : Host) (st : FormState)
    (user_id : string) :
  getUser h = returned (Some user_id) ->
  let x := parseFloat h (state_height st) in
  let refused message :=
    handleSubmit h st
    = [preventDefault; setIsLoading true; toast_error message;
       setIsLoading false] in
  (is_nan x = true -> refused (invalid_type_message h))
  /\ (flt x (Fin 100) = true -> refused "Height must be at least 100 cm"%string)
  /\ (flt (Fin 250) x = true ->
      refused "Height must be less than 250 cm"%string).
Proof.
  intros EU x refused. unfold refused.
  split; [|split]; intros Hx.
  - apply (handleSubmit_height_issue h st user_id _ [] EU). fold x.
    destruct x; [reflexivity|discriminate Hx..].
  - apply (handleSubmit_height_issue h st user_id _
             (if flt (Fin 250) x
              then ["Height must be less than 250 cm"%string] else []) EU).
    fold x. unfold number_issues. rewrite Hx.
    destruct x; [discriminate Hx|reflexivity..].
  - apply (handleSubmit_height_issue h st user_id _ [] EU). fold x.
    unfold number_issues. rewrite Hx.
    rewrite (flt_above_not_below 100 250 x ltac:(lra) Hx).
    destruct x; [discriminate Hx|reflexivity..].
Qed.

Lemma handleSubmit_height_message_witness :
  handleSubmit example_reader example_state_empty
  = [preventDefault; setIsLoading true;
     toast_error (invalid_type_message example_reader); setIsLoading false]
  /\ handleSubmit example_reader example_state_50
     = [preventDefault; setIsLoading true;
        toast_error "Height must be at least 100 cm"; setIsLoading false]
  /\ handleSubmit example_reader example_state_300
     = [preventDefault; setIsLoading true;
        toast_error "Height must be less than 250 cm"; setIsLoading false].
Proof.
  split; [|split].
  - exact (proj1 (handleSubmit_height_message example_reader
                    example_state_empty "user-1" eq_refl) eq_refl).
  - exact (proj1 (proj2 (handleSubmit_height_message example_reader
                           example_state_50 "user-1" eq_refl)) eq_refl).
  - exact (proj2 (proj2 (handleSubmit_height_message example_reader
                           example_state_300 "user-1" eq_refl)) eq_refl).
Defined.
